(** * Vision Buddy: the interaction orchestrator of [App.tsx] and its service clients

    A shallow embedding of the React component [App] (its event handlers
    [handleUserQuestion], [captureAndAnalyze], [pinLocation],
    [handleLanguageChange], [getSystemMessage] and [playMessage]) and of the
    two service clients [GeminiService.describeScene] and
    [SnowflakeService.searchRegistry] / [fetchGoldenPath].

    Conventions of the embedding.
    - A JavaScript string is a [string] (a sequence of 8-bit characters; text
      outside ASCII is carried as its UTF-8 bytes).  [toLowerCase] maps the
      letters A-Z and leaves every other character alone.
    - [string | null] is [option string]; JavaScript truthiness of such a value
      is [truthy]: [null] and the empty string are falsy.
    - A handler of a React component reads the state variables of the render
      that created it and writes the store through the setters; a [useRef]
      cell is read and written in place.  Handlers therefore take the render
      they close over as an argument of its own, next to the world they act on.
    - The collaborators (vision service, registry, speech) are not executed:
      what they answer during a turn is an argument of the handler, and what
      the handler asks of them is appended to the world's log. *)

From Stdlib Require Import String Ascii List Bool ZArith Lia.
Import ListNotations.
Local Open Scope list_scope.
Local Open Scope string_scope.

(** ** JavaScript strings *)

Module Js.

(** One double-quote character, as it appears inside template literals. *)
Definition dquote : string := String "034"%char EmptyString.

(** [String.prototype.toLowerCase] on one character. *)
Definition lowerChar (c : ascii) : ascii :=
  let n := nat_of_ascii c in
  if (65 <=? n)%nat && (n <=? 90)%nat then ascii_of_nat (n + 32) else c.

(** [s.toLowerCase()]. *)
Fixpoint toLowerCase (s : string) : string :=
  match s with
  | EmptyString => EmptyString
  | String c s' => String (lowerChar c) (toLowerCase s')
  end.

(** [s.startsWith(k)]. *)
Fixpoint startsWith (s k : string) {struct k} : bool :=
  match k, s with
  | EmptyString, _ => true
  | String _ _, EmptyString => false
  | String a k', String b s' => if Ascii.eqb a b then startsWith s' k' else false
  end.

(** [s.includes(k)]: [k] occurs in [s] at some position. *)
Fixpoint includes (s k : string) : bool :=
  if startsWith s k then true
  else match s with
       | EmptyString => false
       | String _ s' => includes s' k
       end.

(** [keywords.some(k => s.includes(k))]. *)
Definition someIncluded (keywords : list string) (s : string) : bool :=
  existsb (fun k => includes s k) keywords.

(** Truthiness of a string: only the empty string is falsy. *)
Definition nonEmpty (s : string) : bool :=
  match s with EmptyString => false | String _ _ => true end.

(** Truthiness of a [string | null]. *)
Definition truthy (v : option string) : bool :=
  match v with Some s => nonEmpty s | None => false end.

(** [v || undefined] for a [string | null]: a falsy value becomes absent. *)
Definition orUndefined (v : option string) : option string :=
  if truthy v then v else None.

(** [a || b] on strings. *)
Definition orElse (a b : string) : string := if nonEmpty a then a else b.

End Js.

(** ** The language table and the keyword lists of [App] *)

(** [languageKeywords], in the order of the object literal (the order in which
    [Object.entries] and [Object.keys] enumerate it). *)
Definition languageKeywords : list (string * string) :=
  [ ("Spanish", "es-ES"); ("French", "fr-FR"); ("German", "de-DE");
    ("Chinese", "zh-CN"); ("Japanese", "ja-JP"); ("Hindi", "hi-IN");
    ("English", "en-US"); ("Portuguese", "pt-BR"); ("Italian", "it-IT") ].

(** [languageKeywords[langName]]: absent for a name that is not a key. *)
Fixpoint lookup (table : list (string * string)) (key : string) : option string :=
  match table with
  | [] => None
  | (k, v) :: rest => if String.eqb k key then Some v else lookup rest key
  end.

Definition pinKeywords : list string :=
  [ "pin this"; "save this"; "remember this"; "pin location"; "save location";
    "pin"; "save" ].

Definition navKeywords : list string :=
  [ "where is"; "find"; "navigate to"; "go to"; "looking for"; "washroom";
    "toilet"; "exit"; "elevator"; "restroom" ].

(** The four phrases of the language-detection loop, for one language name
    already in lower case. *)
Definition switchPhrases (l : string) : list string :=
  [ "speak in " ++ l; "switch to " ++ l; "talk in " ++ l;
    "change language to " ++ l ].

(** The language-detection loop of [handleUserQuestion]: the first entry of
    [languageKeywords] one of whose phrases occurs in the lower-cased
    utterance. *)
Fixpoint detectLanguage (entries : list (string * string)) (lowerQuestion : string)
  : option string :=
  match entries with
  | [] => None
  | (langName, _) :: rest =>
      if Js.someIncluded (switchPhrases (Js.toLowerCase langName)) lowerQuestion
      then Some langName
      else detectLanguage rest lowerQuestion
  end.

Definition isPinIntent (lowerQuestion : string) : bool :=
  Js.someIncluded pinKeywords lowerQuestion.

Definition isNavIntent (lowerQuestion : string) : bool :=
  Js.someIncluded navKeywords lowerQuestion.

(** The translate loop: [current] unless some [translate to <language>] occurs,
    in which case the first such language in the order of the table. *)
Fixpoint translateTarget (names : list string) (lowerQuestion current : string)
  : string :=
  match names with
  | [] => current
  | langName :: rest =>
      if Js.includes lowerQuestion ("translate to " ++ Js.toLowerCase langName)
      then langName
      else translateTarget rest lowerQuestion current
  end.

Definition targetLangForThisRequest (lowerQuestion current : string) : string :=
  translateTarget (map fst languageKeywords) lowerQuestion current.

(** The branch of [handleUserQuestion] an accepted utterance takes.  The
    handler has no intent value of its own: the intent is the first [return]
    it reaches.  A question that is not a navigation request is analysed as a
    free-form question. *)
Inductive Intent : Type :=
| LanguageSwitch (targetLanguage : string)
| PinLocation
| NavigateTo (targetDescription : string)
| FreeformQuestion (text : string).

Definition classify (question : string) : Intent :=
  let lowerQuestion := Js.toLowerCase question in
  match detectLanguage languageKeywords lowerQuestion with
  | Some langName => LanguageSwitch langName
  | None =>
      if isPinIntent lowerQuestion then PinLocation
      else if isNavIntent lowerQuestion then NavigateTo question
      else FreeformQuestion question
  end.

(** ** Exceptions

    A computation either completes with a value or throws; the awaited result
    of an [async] function is of this kind too, [Throw] being a promise that
    rejects.  A [catch] clause runs on what the [try] block throws. *)

Inductive Exc (A : Type) : Type :=
| Ok (a : A)
| Throw (e : string).
Arguments Ok {A} a.
Arguments Throw {A} e.

Definition bind {A B : Type} (m : Exc A) (k : A -> Exc B) : Exc B :=
  match m with
  | Ok a => k a
  | Throw e => Throw e
  end.

Definition tryCatch {A : Type} (body : Exc A) (handler : string -> Exc A) : Exc A :=
  match body with
  | Ok a => Ok a
  | Throw e => handler e
  end.

(** ** [GeminiService]: the vision analysis call *)

Module Gemini.

Record SceneAnalysis : Type := {
  description : string;
  hazard : option string;
  navigation : option string
}.

(** What [JSON.parse] makes of the cleaned response text: it throws, or it
    yields [null], or it yields an object read at the declared type. *)
Inductive Parsed : Type :=
| SyntaxError
| ParsedNull
| ParsedObject (a : SceneAnalysis).

(** What the awaited [generateContent] call does: the promise rejects
    (transport error), or the response carries no text, or it carries a text
    of which [JSON.parse] makes [p]. *)
Inductive Generate : Type :=
| Rejects
| NoText
| Text (p : Parsed).

(** The literal used when the response has no text, parsed: it has a
    description and a null hazard, and no navigation field. *)
Definition noTextAnalysis : SceneAnalysis :=
  {| description := "I cannot see clearly."; hazard := None; navigation := None |}.

(** The object returned by the [catch] clause. *)
Definition fallbackAnalysis : SceneAnalysis :=
  {| description := "I'm having trouble seeing the path right now.";
     hazard := Some "Visual system error.";
     navigation := None |}.

(** The [prompt] of [describeScene]: the question when there is one, else
    the navigation target when there is one, else the plain request. *)
Definition prompt (question navigationTarget : option string) (targetLanguage : string)
  : string :=
  match Js.orUndefined question, Js.orUndefined navigationTarget with
  | Some q, _ =>
      "The user is asking: " ++ Js.dquote ++ q ++ Js.dquote ++
      ". Based on the image, provide a precise spatial answer in " ++
      targetLanguage ++ "."
  | None, Some t =>
      "I am looking for the " ++ t ++ ". Guide me based on what you see in " ++
      targetLanguage ++ "."
  | None, None => "Describe the scene ahead in " ++ targetLanguage ++ "."
  end.

(** The [try] block of [describeScene]: the awaited call, then [JSON.parse].
    [None] is the value [null]. *)
Definition tryGenerate (g : Generate) : Exc (option SceneAnalysis) :=
  match g with
  | Rejects => Throw "generateContent rejected"
  | NoText => Ok (Some noTextAnalysis)
  | Text SyntaxError => Throw "SyntaxError"
  | Text ParsedNull => Ok None
  | Text (ParsedObject a) => Ok (Some a)
  end.

(** [describeScene], given what the awaited call does: whatever the [try]
    block throws is caught and replaced by [fallbackAnalysis]. *)
Definition describeScene (g : Generate) : Exc (option SceneAnalysis) :=
  tryCatch (tryGenerate g) (fun _ => Ok (Some fallbackAnalysis)).

End Gemini.

(** ** [SnowflakeService]: the registry reads *)

Module Snowflake.

Local Notation "x <- m ;; k" := (bind m (fun x => k))
  (at level 61, m at next level, right associativity).

#[local] Set Warnings "-register-all".

(** A JSON value, as [response.json()] yields it. *)
Inductive Json : Type :=
| JNull
| JBool (b : bool)
| JNumber (n : Z)
| JString (s : string)
| JArray (items : list Json)
| JObject (fields : list (string * Json)).

(** A JavaScript value read out of a JSON value: [None] is [undefined]. *)
Definition Value : Type := option Json.

(** What the awaited [fetch] and [response.json()] do: the request fails,
    or the body is not JSON, or the body parses to [data]. *)
Inductive Response : Type :=
| NetworkError
| NotJson
| Body (data : Json).

Fixpoint field (fields : list (string * Json)) (name : string) : Value :=
  match fields with
  | [] => None
  | (k, v) :: rest => if String.eqb k name then Some v else field rest name
  end.

(** [v.name] for a property name that is no array index: reading a property
    of [null] throws, an object answers with its field, every other value
    has no such property. *)
Definition prop (v : Json) (name : string) : Exc Value :=
  match v with
  | JNull => Throw "TypeError"
  | JObject fields => Ok (field fields name)
  | _ => Ok None
  end.

(** The decimal name of a one-digit index. *)
Definition indexName (i : nat) : string :=
  String (ascii_of_nat (48 + i)) EmptyString.

(** [row[i]] for a literal index [i] below ten. *)
Definition index (row : Json) (i : nat) : Exc Value :=
  match row with
  | JNull => Throw "TypeError"
  | JArray items => Ok (nth_error items i)
  | JString s =>
      Ok (match String.get i s with
          | Some c => Some (JString (String c EmptyString))
          | None => None
          end)
  | JObject fields => Ok (field fields (indexName i))
  | _ => Ok None
  end.

(** Truthiness of a value. *)
Definition truthy (v : Value) : bool :=
  match v with
  | None | Some JNull => false
  | Some (JBool b) => b
  | Some (JNumber n) => negb (Z.eqb n 0)
  | Some (JString s) => Js.nonEmpty s
  | Some (JArray _) | Some (JObject _) => true
  end.

(** [v === "TRUE" || v === true]. *)
Definition isTrue (v : Value) : bool :=
  match v with
  | Some (JString s) => String.eqb s "TRUE"
  | Some (JBool b) => b
  | _ => false
  end.

(** A node as the row mapper builds it: the cells are copied as they are. *)
Record RowNode : Type := {
  id : Value;
  buildingId : Value;
  coordinates : Json;
  description : Value;
  isGoldenPath : bool
}.

(** [items.map(f)] where [f] may throw: the first throw ends the loop. *)
Fixpoint mapExc {A B : Type} (f : A -> Exc B) (items : list A) : Exc (list B) :=
  match items with
  | [] => Ok []
  | a :: rest =>
      b <- f a ;;
      bs <- mapExc f rest ;;
      Ok (b :: bs)
  end.

Section Reads.

(** [JSON.parse] applied to a cell: it throws or yields a JSON value. *)
Variable JSON_parse : Value -> Exc Json.

(** The arrow function given to [data.data.map]. *)
Definition mapRow (row : Json) : Exc RowNode :=
  c0 <- index row 0 ;;
  c1 <- index row 1 ;;
  c2 <- index row 2 ;;
  coords <- JSON_parse c2 ;;
  c3 <- index row 3 ;;
  c4 <- index row 4 ;;
  Ok {| id := c0; buildingId := c1; coordinates := coords;
        description := c3; isGoldenPath := isTrue c4 |}.

(** [data.data.map(...)]: only an array has a [map] method. *)
Definition mapRows (rows : Value) : Exc (list RowNode) :=
  match rows with
  | Some (JArray items) => mapExc mapRow items
  | _ => Throw "TypeError"
  end.

(** The [try] block shared by [searchRegistry] and [fetchGoldenPath]. *)
Definition tryRead (r : Response) : Exc (list RowNode) :=
  match r with
  | NetworkError => Throw "fetch failed"
  | NotJson => Throw "SyntaxError"
  | Body data =>
      rows <- prop data "data" ;;
      if truthy rows then mapRows rows else Ok []
  end.

(** [searchRegistry(query, buildingId)], given what the request built from
    the two arguments is answered with.  The [catch] clause returns the
    empty list. *)
Definition searchRegistry (query buildingId : string) (r : Response)
  : Exc (list RowNode) :=
  tryCatch (tryRead r) (fun _ => Ok []).

(** [fetchGoldenPath(buildingId)], likewise. *)
Definition fetchGoldenPath (buildingId : string) (r : Response) : Exc (list RowNode) :=
  tryCatch (tryRead r) (fun _ => Ok []).

End Reads.

End Snowflake.

(** ** The component [App] *)

Module App.

(** [SpatialNode], at the type the registry client declares. *)
Record SpatialNode : Type := {
  id : string;
  buildingId : string;
  coordinates : Z * Z;
  description : string;
  isGoldenPath : bool
}.

(** The [useState] variables the handlers read or write.  A value of this
    type is one render of the component: the values its closures see.
    [solanaBalance] counts thousandths (the initial 1.245 is 1245, the
    reward 0.005 is 5).  [isScanning], [isListening], [audioUrl],
    [currentBuilding] and [isSnowflakeConnected] only drive the display and
    are left out; [isAudioPlaying] belongs to the speech model below. *)
Record State : Type := {
  isLoading : bool;
  lastDescription : string;
  lastSceneDescription : string;
  navigationTarget : option string;
  currentLanguage : string;
  solanaBalance : Z;
  goldenPath : list SpatialNode;
  error : option string
}.

(** What a handler asks of its collaborators. *)
Inductive Effect : Type :=
| Speak (text : string)
| HazardAlert
| DescribeScene (question navigationTarget : option string) (targetLanguage : string)
| SearchRegistry (query building : string)
| SaveNewPath (building : string) (coords : Z * Z) (text : string) (golden : bool)
| FetchGoldenPath (building : string)
| SetupSpeechRecognition (lang : string).

(** The component between two events: the store the next render reads, the
    [useRef] cells, the render whose [handleUserQuestion] the recogniser's
    [onresult] calls, and the requests made so far, oldest first. *)
Record World : Type := {
  store : State;
  currentLanguageRef : string;
  videoRef : bool;
  canvasRef : bool;
  recognition : State;
  log : list Effect
}.

(** What the collaborators answer during one turn. *)
Record Answers : Type := {
  locations : list SpatialNode;
  generate : Gemini.Generate;
  saved : Exc string;
  verified : list SpatialNode;
  random : Z * Z
}.

(** *** The state setters *)

Definition withStore (f : State -> State) (w : World) : World :=
  {| store := f (store w); currentLanguageRef := currentLanguageRef w;
     videoRef := videoRef w; canvasRef := canvasRef w;
     recognition := recognition w; log := log w |}.

Definition setIsLoading (b : bool) : World -> World :=
  withStore (fun s =>
    {| isLoading := b; lastDescription := lastDescription s;
       lastSceneDescription := lastSceneDescription s;
       navigationTarget := navigationTarget s;
       currentLanguage := currentLanguage s; solanaBalance := solanaBalance s;
       goldenPath := goldenPath s; error := error s |}).

Definition setLastDescription (d : string) : World -> World :=
  withStore (fun s =>
    {| isLoading := isLoading s; lastDescription := d;
       lastSceneDescription := lastSceneDescription s;
       navigationTarget := navigationTarget s;
       currentLanguage := currentLanguage s; solanaBalance := solanaBalance s;
       goldenPath := goldenPath s; error := error s |}).

Definition setLastSceneDescription (d : string) : World -> World :=
  withStore (fun s =>
    {| isLoading := isLoading s; lastDescription := lastDescription s;
       lastSceneDescription := d;
       navigationTarget := navigationTarget s;
       currentLanguage := currentLanguage s; solanaBalance := solanaBalance s;
       goldenPath := goldenPath s; error := error s |}).

Definition setNavigationTarget (t : option string) : World -> World :=
  withStore (fun s =>
    {| isLoading := isLoading s; lastDescription := lastDescription s;
       lastSceneDescription := lastSceneDescription s;
       navigationTarget := t;
       currentLanguage := currentLanguage s; solanaBalance := solanaBalance s;
       goldenPath := goldenPath s; error := error s |}).

Definition setCurrentLanguage (l : string) : World -> World :=
  withStore (fun s =>
    {| isLoading := isLoading s; lastDescription := lastDescription s;
       lastSceneDescription := lastSceneDescription s;
       navigationTarget := navigationTarget s;
       currentLanguage := l; solanaBalance := solanaBalance s;
       goldenPath := goldenPath s; error := error s |}).

(** [setSolanaBalance(prev => f(prev))]: the update reads the store. *)
Definition setSolanaBalance (f : Z -> Z) : World -> World :=
  withStore (fun s =>
    {| isLoading := isLoading s; lastDescription := lastDescription s;
       lastSceneDescription := lastSceneDescription s;
       navigationTarget := navigationTarget s;
       currentLanguage := currentLanguage s; solanaBalance := f (solanaBalance s);
       goldenPath := goldenPath s; error := error s |}).

Definition setGoldenPath (p : list SpatialNode) : World -> World :=
  withStore (fun s =>
    {| isLoading := isLoading s; lastDescription := lastDescription s;
       lastSceneDescription := lastSceneDescription s;
       navigationTarget := navigationTarget s;
       currentLanguage := currentLanguage s; solanaBalance := solanaBalance s;
       goldenPath := p; error := error s |}).

Definition setError (e : option string) : World -> World :=
  withStore (fun s =>
    {| isLoading := isLoading s; lastDescription := lastDescription s;
       lastSceneDescription := lastSceneDescription s;
       navigationTarget := navigationTarget s;
       currentLanguage := currentLanguage s; solanaBalance := solanaBalance s;
       goldenPath := goldenPath s; error := e |}).

(** [currentLanguageRef.current = l]. *)
Definition setLanguageRef (l : string) (w : World) : World :=
  {| store := store w; currentLanguageRef := l;
     videoRef := videoRef w; canvasRef := canvasRef w;
     recognition := recognition w; log := log w |}.

(** The recogniser is replaced by one whose [onresult] calls the
    [handleUserQuestion] of render [r]. *)
Definition arm (r : State) (w : World) : World :=
  {| store := store w; currentLanguageRef := currentLanguageRef w;
     videoRef := videoRef w; canvasRef := canvasRef w;
     recognition := r; log := log w |}.

Definition emit (e : Effect) (w : World) : World :=
  {| store := store w; currentLanguageRef := currentLanguageRef w;
     videoRef := videoRef w; canvasRef := canvasRef w;
     recognition := recognition w; log := (log w ++ [e])%list |}.

(** *** Handlers as state transformers that may throw *)

Definition M (A : Type) : Type := World -> Exc A * World.

Definition ret {A : Type} (a : A) : M A := fun w => (Ok a, w).

Definition bindM {A B : Type} (m : M A) (k : A -> M B) : M B :=
  fun w =>
    match m w with
    | (Ok a, w') => k a w'
    | (Throw e, w') => (Throw e, w')
    end.

Definition throw {A : Type} (e : string) : M A := fun w => (Throw e, w).

Definition act (f : World -> World) : M unit := fun w => (Ok tt, f w).

(** [await] of a promise that settled as [outcome]. *)
Definition await {A : Type} (outcome : Exc A) : M A := fun w => (outcome, w).

Local Notation "x <- m ;; k" := (bindM m (fun x => k))
  (at level 61, m at next level, right associativity).
Local Notation "m ;; k" := (bindM m (fun _ => k))
  (at level 61, right associativity).

Definition when (b : bool) (m : M unit) : M unit := if b then m else ret tt.

(** [try { body } catch (err) { handler(err) } finally { finalizer }]. *)
Definition tryCatchFinally (body : M unit) (handler : string -> M unit)
           (finalizer : World -> World) : M unit :=
  fun w =>
    match body w with
    | (Ok _, w1) => (Ok tt, finalizer w1)
    | (Throw e, w1) =>
        match handler e w1 with
        | (r, w2) => (r, finalizer w2)
        end
    end.

(** The world a handler leaves behind. *)
Definition exec (m : M unit) (w : World) : World := snd (m w).

(** [playMessage(text)], as the turn sees it: the request is made of the
    speech model and the promise does not reject. *)
Definition playMessage (text : string) : M unit := act (emit (Speak text)).

(** [playHazardAlert()]: its promise always resolves. *)
Definition playHazardAlert : M unit := act (emit HazardAlert).

(** [gemini.describeScene(image, question, navigationTarget, targetLanguage)]:
    [None] is the value [null]. *)
Definition describeScene (question navigationTarget : option string)
           (targetLanguage : string) (a : Answers) : M (option Gemini.SceneAnalysis) :=
  act (emit (DescribeScene question navigationTarget targetLanguage)) ;;
  await (Gemini.describeScene (generate a)).

(** Reading a property of the analysis: of [null] it throws. *)
Definition deref (analysis : option Gemini.SceneAnalysis) : M Gemini.SceneAnalysis :=
  match analysis with
  | Some x => ret x
  | None => throw "TypeError"
  end.

(** *** The localisation catalogue *)

Inductive MessageKey : Type := navigating | sign_hunting | pinned | pin_failed.

Definition english (key : MessageKey) (param : string) : string :=
  match key with
  | navigating => "Navigating to " ++ param ++ ". I will guide you."
  | sign_hunting => "I'll look for signs for " ++ param ++ ". Let's go."
  | pinned => "Location pinned to spatial registry. Awaiting audit."
  | pin_failed => "Failed to save location to registry."
  end.

Definition spanish (key : MessageKey) (param : string) : string :=
  match key with
  | navigating => "Navegando hacia " ++ param ++ ". Te guiaré."
  | sign_hunting => "Buscaré señales para " ++ param ++ ". Vamos."
  | pinned => "Ubicación fijada en el registro espacial. Esperando auditoría."
  | pin_failed => "Error al guardar la ubicación en el registro."
  end.

Definition french (key : MessageKey) (param : string) : string :=
  match key with
  | navigating => "Navigation vers " ++ param ++ ". Je vais vous guider."
  | sign_hunting => "Je vais chercher des panneaux pour " ++ param ++ ". Allons-y."
  | pinned => "Emplacement épinglé dans le registre spatial. En attente d'audit."
  | pin_failed => "Échec de l'enregistrement de l'emplacement."
  end.

Definition german (key : MessageKey) (param : string) : string :=
  match key with
  | navigating => "Navigiere zu " ++ param ++ ". Ich werde dich führen."
  | sign_hunting => "Ich werde nach Schildern für " ++ param ++ " suchen. Los geht's."
  | pinned => "Standort im räumlichen Register markiert. Audit ausstehend."
  | pin_failed => "Standort konnte nicht im Register gespeichert werden."
  end.

Definition hindi (key : MessageKey) (param : string) : string :=
  match key with
  | navigating => param ++ " की ओर जा रहे हैं। मैं आपका मार्गदर्शन करूँगा।"
  | sign_hunting => "मैं " ++ param ++ " के लिए संकेतों की तलाश करूँगा। चलिए।"
  | pinned => "स्थान स्थानिक रजिस्ट्री में पिन किया गया। ऑडिट की प्रतीक्षा है।"
  | pin_failed => "रजिस्ट्री में स्थान सहेजने में विफल।"
  end.

(** [messages[language]]: five languages have a catalogue. *)
Definition messages (language : string) : option (MessageKey -> string -> string) :=
  if String.eqb language "English" then Some english
  else if String.eqb language "Spanish" then Some spanish
  else if String.eqb language "French" then Some french
  else if String.eqb language "German" then Some german
  else if String.eqb language "Hindi" then Some hindi
  else None.

(** [getSystemMessage(key, param)] of render [r]: the catalogue of the
    render's [currentLanguage], or the English one.  Every catalogue has
    every key, so the inner fallback never applies. *)
Definition getSystemMessage (r : State) (key : MessageKey) (param : string) : string :=
  match messages (currentLanguage r) with
  | Some langMessages => langMessages key param
  | None => english key param
  end.

(** [confirmations[langName] || `Language set to ${langName}.`]. *)
Definition confirmation (langName : string) : string :=
  if String.eqb langName "Spanish" then "Idioma cambiado a español."
  else if String.eqb langName "French" then "Langue réglée sur le français."
  else if String.eqb langName "German" then "Sprache auf Deutsch eingestellt."
  else if String.eqb langName "Chinese" then "语言已设置为中文。"
  else if String.eqb langName "Japanese" then "言語が日本語に設定されました。"
  else if String.eqb langName "Hindi" then "भाषा हिंदी में सेट की गई है।"
  else if String.eqb langName "English" then "Language set to English."
  else if String.eqb langName "Portuguese" then "Idioma definido para português."
  else if String.eqb langName "Italian" then "Lingua impostata su italiano."
  else "Language set to " ++ langName ++ ".".

(** *** The handlers *)

(** [setupSpeechRecognition(lang = 'en-US')] of render [r]. *)
Definition setupSpeechRecognition (r : State) (lang : option string) : M unit :=
  act (arm r) ;;
  act (emit (SetupSpeechRecognition
               (match lang with Some l => l | None => "en-US" end))).

(** [handleLanguageChange(langName)] of render [r]. *)
Definition handleLanguageChange (r : State) (langName : string) : M unit :=
  act (setCurrentLanguage langName) ;;
  act (setLanguageRef langName) ;;
  setupSpeechRecognition r (lookup languageKeywords langName) ;;
  playMessage (confirmation langName).

Definition building : string := "uni_library_main".

(** [pinLocation()] of render [r]. *)
Definition pinLocation (r : State) (a : Answers) : M unit :=
  let descriptionToPin := Js.orElse (lastSceneDescription r) (lastDescription r) in
  if negb (Js.nonEmpty descriptionToPin) || isLoading r then ret tt
  else
    act (setIsLoading true) ;;
    tryCatchFinally
      (act (emit (SaveNewPath building (random a) descriptionToPin false)) ;;
       _ <- await (saved a) ;;
       act (setError None) ;;
       act (emit (FetchGoldenPath building)) ;;
       act (setGoldenPath (verified a)) ;;
       playMessage (getSystemMessage r pinned EmptyString))
      (fun message =>
         act (setError (Some message)) ;;
         playMessage (getSystemMessage r pin_failed EmptyString))
      (setIsLoading false).

(** The placeholder [handleUserQuestion] shows while it works. *)
Definition listening (question : string) : string :=
  "Listening: " ++ Js.dquote ++ question ++ Js.dquote.

(** The [try] block of [handleUserQuestion]. *)
Definition answerQuestion (r : State) (question : string) (isNav : bool)
           (targetLang : string) (a : Answers) : M unit :=
  when isNav
    (act (emit (SearchRegistry question building)) ;;
     match locations a with
     | first :: _ =>
         let target := description first in
         act (setNavigationTarget (Some target)) ;;
         playMessage (getSystemMessage r navigating target)
     | [] =>
         act (setNavigationTarget (Some question)) ;;
         playMessage (getSystemMessage r sign_hunting question)
     end) ;;
  result <- describeScene (Some question) (Js.orUndefined (navigationTarget r))
                          targetLang a ;;
  analysis <- deref result ;;
  act (setLastDescription (Gemini.description analysis)) ;;
  act (setLastSceneDescription (Gemini.description analysis)) ;;
  playMessage (Gemini.description analysis) ;;
  when (Js.truthy (Gemini.navigation analysis))
    (playMessage (match Gemini.navigation analysis with
                  | Some n => n
                  | None => EmptyString
                  end)).

(** [handleUserQuestion(question)] of render [r]. *)
Definition handleUserQuestion (r : State) (question : string) (a : Answers)
  : World -> World :=
  fun w =>
    if negb (videoRef w) || negb (canvasRef w) || isLoading r then w
    else
      exec
        (act (setIsLoading true) ;;
         act (setLastDescription (listening question)) ;;
         let lowerQuestion := Js.toLowerCase question in
         match detectLanguage languageKeywords lowerQuestion with
         | Some langName =>
             handleLanguageChange r langName ;;
             act (setIsLoading false)
         | None =>
             if isPinIntent lowerQuestion then
               pinLocation r a ;;
               act (setIsLoading false)
             else
               let isNav := isNavIntent lowerQuestion in
               targetLang <- (fun w' =>
                 (Ok (targetLangForThisRequest lowerQuestion (currentLanguageRef w')), w')) ;;
               tryCatchFinally
                 (answerQuestion r question isNav targetLang a)
                 (fun _ => ret tt)
                 (setIsLoading false)
         end) w.

(** The [try] block of [captureAndAnalyze]. *)
Definition analyzeScan (r : State) (a : Answers) : M unit :=
  language <- (fun w => (Ok (currentLanguageRef w), w)) ;;
  result <- describeScene None (Js.orUndefined (navigationTarget r)) language a ;;
  analysis <- deref result ;;
  act (setLastDescription (Gemini.description analysis)) ;;
  act (setLastSceneDescription (Gemini.description analysis)) ;;
  when (Js.truthy (Gemini.hazard analysis))
    (playHazardAlert ;;
     playMessage ("Warning: " ++ match Gemini.hazard analysis with
                                 | Some h => h
                                 | None => EmptyString
                                 end)) ;;
  when (Js.truthy (navigationTarget r) && Js.truthy (Gemini.navigation analysis))
    (playMessage (match Gemini.navigation analysis with
                  | Some n => n
                  | None => EmptyString
                  end)) ;;
  act (setSolanaBalance (fun prev => prev + 5)%Z).

(** [captureAndAnalyze()] of render [r]. *)
Definition captureAndAnalyze (r : State) (a : Answers) : World -> World :=
  fun w =>
    if negb (videoRef w) || negb (canvasRef w) || isLoading r then w
    else
      exec
        (act (setIsLoading true) ;;
         tryCatchFinally (analyzeScan r a) (fun _ => ret tt) (setIsLoading false))
        w.

(** *** The component as a machine driven by events *)

(** The first render. *)
Definition initial : State :=
  {| isLoading := false; lastDescription := EmptyString;
     lastSceneDescription := EmptyString; navigationTarget := None;
     currentLanguage := "English"; solanaBalance := 1245;
     goldenPath := []; error := None |}.

(** The component once its mount effect has run: the verified path [path]
    has been loaded, and the recogniser calls the handler of the first
    render. *)
Definition mounted (path : list SpatialNode) : World :=
  {| store := {| isLoading := false; lastDescription := EmptyString;
                 lastSceneDescription := EmptyString; navigationTarget := None;
                 currentLanguage := "English"; solanaBalance := 1245;
                 goldenPath := path; error := None |};
     currentLanguageRef := "English";
     videoRef := true; canvasRef := true;
     recognition := initial;
     log := [FetchGoldenPath building; SetupSpeechRecognition "en-US"] |}.

(** [loadSpatialData()], given the path the registry answers with: the read
    never rejects, so its [catch] clause does not run. *)
Definition loadSpatialData (path : list SpatialNode) : M unit :=
  act (emit (FetchGoldenPath building)) ;;
  act (setGoldenPath path) ;;
  act (setError None).

(** What reaches the component.  A turn runs to its end before the next
    event is taken, and the component has rendered in between: a button
    calls the handler of the render of the current store, the recogniser
    calls the handler it was set up with.  [PlaceSelected i] is a click on
    the card of the [i]-th saved place; [TestVoiceRequested],
    [RepeatRequested] and [RetryRequested] are the three small buttons of the
    guidance card ([RETRY] is displayed only after a load that failed; the
    machine takes it at any time). *)
Inductive Event : Type :=
| VoiceResult (transcript : string) (a : Answers)
| ScanRequested (a : Answers)
| PinRequested (a : Answers)
| LanguageSelected (langName : string)
| NavigationCancelled
| PlaceSelected (index : nat)
| TestVoiceRequested
| RepeatRequested
| RetryRequested (path : list SpatialNode).

Definition step (w : World) (e : Event) : World :=
  match e with
  | VoiceResult transcript a => handleUserQuestion (recognition w) transcript a w
  | ScanRequested a =>
      if isLoading (store w) then w else captureAndAnalyze (store w) a w
  | PinRequested a =>
      if negb (Js.nonEmpty (lastDescription (store w))) || isLoading (store w)
      then w
      else exec (pinLocation (store w) a) w
  | LanguageSelected langName => exec (handleLanguageChange (store w) langName) w
  | NavigationCancelled => setNavigationTarget None w
  | PlaceSelected index =>
      match nth_error (goldenPath (store w)) index with
      | Some node =>
          exec (act (setNavigationTarget (Some (description node))) ;;
                playMessage ("Navigating to " ++ description node)) w
      | None => w
      end
  | TestVoiceRequested =>
      exec (playMessage "Hi! I'm Vision Buddy. I'm ready to help you navigate.") w
  | RepeatRequested =>
      if Js.nonEmpty (lastDescription (store w))
      then exec (playMessage (lastDescription (store w))) w
      else w
  | RetryRequested path => exec (loadSpatialData path) w
  end.

Definition run (w : World) (events : list Event) : World :=
  fold_left step events w.

(** *** Reading the log *)

(** What was asked of the log since world [w0]. *)
Definition since (w0 w : World) : list Effect :=
  skipn (length (log w0)) (log w).

Fixpoint spoken (effects : list Effect) : list string :=
  match effects with
  | [] => []
  | Speak text :: rest => text :: spoken rest
  | _ :: rest => spoken rest
  end.

Definition isSave (e : Effect) : bool :=
  match e with SaveNewPath _ _ _ _ => true | _ => false end.

Definition isDescribeScene (e : Effect) : bool :=
  match e with DescribeScene _ _ _ => true | _ => false end.

(** The effects of the [try] block of a voice turn, after the request for
    the analysis: the description, then the guidance if there is any. *)
Definition answerSpeech (analysis : Exc (option Gemini.SceneAnalysis)) : list Effect :=
  match analysis with
  | Ok (Some an) =>
      (Speak (Gemini.description an) ::
       match Js.orUndefined (Gemini.navigation an) with
       | Some n => [Speak n]
       | None => []
       end)
  | _ => []
  end.

(** The effects of the [try] block of a voice turn before the request for
    the analysis. *)
Definition announcement (r : State) (question : string) (a : Answers) : list Effect :=
  match locations a with
  | first :: _ =>
      [SearchRegistry question building;
       Speak (getSystemMessage r navigating (description first))]
  | [] =>
      [SearchRegistry question building;
       Speak (getSystemMessage r sign_hunting question)]
  end.

(** The effects of the [try] block of a scan turn after the request for the
    analysis: the alert and the warning if there is a hazard, then the
    guidance if a target is set and there is any. *)
Definition scanSpeech (r : State) (analysis : Exc (option Gemini.SceneAnalysis))
  : list Effect :=
  match analysis with
  | Ok (Some an) =>
      (match Js.orUndefined (Gemini.hazard an) with
       | Some h => [HazardAlert; Speak ("Warning: " ++ h)]
       | None => []
       end ++
       match Js.orUndefined (navigationTarget r), Js.orUndefined (Gemini.navigation an) with
       | Some _, Some n => [Speak n]
       | _, _ => []
       end)%list
  | _ => []
  end.

(** The effects of [pinLocation] once it has passed its guard. *)
Definition pinEffects (r : State) (a : Answers) : list Effect :=
  SaveNewPath building (random a)
    (Js.orElse (lastSceneDescription r) (lastDescription r)) false ::
  match saved a with
  | Ok _ => [FetchGoldenPath building; Speak (getSystemMessage r pinned EmptyString)]
  | Throw _ => [Speak (getSystemMessage r pin_failed EmptyString)]
  end.

(** The badge the render shows next to a navigation target: [Some true]
    when the target is shown with its sign-hunting mark, [Some false] when
    it is shown without, [None] when no target is shown.  The two texts are
    compared after the lower-casing of the host, which is a parameter here:
    [toLowerCase] is [String.prototype.toLowerCase], of which
    [Js.toLowerCase] is the restriction to ASCII text. *)
Definition huntingSigns (toLowerCase : string -> string) (s : State) : option bool :=
  match Js.orUndefined (navigationTarget s) with
  | Some target =>
      Some (negb (existsb
                    (fun n => Js.includes (toLowerCase (description n))
                                          (toLowerCase target))
                    (goldenPath s)))
  | None => None
  end.

End App.

(** ** [playMessage]: the speech output *)

Module Speech.

(** What the awaited [audio.play()] does. *)
Inductive Play : Type := Started | AbortError | OtherError.

(** What the awaited [elevenLabs.speak(text)] resolves with: a voice URL,
    together with what playing it does, or [null]. *)
Inductive Synthesis : Type :=
| Voice (play : Play)
| NoVoice.

(** The audio side of the component.  Playbacks are named by the text they
    speak.  [audio] is what the audio element is playing; [queue] is the
    queue of [window.speechSynthesis], whose head is being spoken.  Every
    utterance put on the queue has the same [onend], and the audio element
    has one [ended] listener: both are [() => setIsAudioPlaying(false)]. *)
Record Player : Type := {
  isAudioPlaying : bool;
  audioRef : bool;
  audio : option string;
  queue : list string
}.

(** What happens to the audio side.  [Call] is [playMessage(text)] up to
    its first [await]; [Settle] is the rest of that call, once the awaited
    synthesis (and play) has settled; [Ended] is the [ended] event of the
    audio element; [UtteranceEnd] is the [end] event of the utterance being
    spoken.  An utterance removed by [cancel()] gets no [end] event. *)
Inductive Event : Type :=
| Call (text : string)
| Settle (text : string) (s : Synthesis)
| Ended
| UtteranceEnd.

Definition setIsAudioPlaying (b : bool) (p : Player) : Player :=
  {| isAudioPlaying := b; audioRef := audioRef p; audio := audio p; queue := queue p |}.

(** [window.speechSynthesis.cancel()]. *)
Definition cancel (p : Player) : Player :=
  {| isAudioPlaying := isAudioPlaying p; audioRef := audioRef p; audio := audio p;
     queue := [] |}.

(** [window.speechSynthesis.speak(utterance)]. *)
Definition speak (text : string) (p : Player) : Player :=
  {| isAudioPlaying := isAudioPlaying p; audioRef := audioRef p; audio := audio p;
     queue := (queue p ++ [text])%list |}.

(** What the audio element plays becomes [a]. *)
Definition setAudio (a : option string) (p : Player) : Player :=
  {| isAudioPlaying := isAudioPlaying p; audioRef := audioRef p; audio := a;
     queue := queue p |}.

Definition step (p : Player) (e : Event) : Player :=
  match e with
  | Call _ => cancel (setIsAudioPlaying true p)
  | Settle text (Voice play) =>
      if audioRef p then
        let paused := setAudio None p in
        match play with
        | Started => setAudio (Some text) paused
        | AbortError => setIsAudioPlaying false paused
        | OtherError => speak text paused
        end
      else p
  | Settle text NoVoice => speak text p
  | Ended =>
      match audio p with
      | Some _ => setIsAudioPlaying false (setAudio None p)
      | None => p
      end
  | UtteranceEnd =>
      match queue p with
      | _ :: rest =>
          setIsAudioPlaying false
            {| isAudioPlaying := isAudioPlaying p; audioRef := audioRef p;
               audio := audio p; queue := rest |}
      | [] => p
      end
  end.

Definition run (p : Player) (events : list Event) : Player :=
  fold_left step events p.

(** The playbacks that can be heard. *)
Definition active (p : Player) : list string :=
  (match audio p with Some t => [t] | None => [] end ++
   match queue p with t :: _ => [t] | [] => [] end)%list.

(** A completion event the player can receive in state [p]. *)
Definition completes (p : Player) (e : Event) : bool :=
  match e with
  | Ended => match audio p with Some _ => true | None => false end
  | UtteranceEnd => match queue p with _ :: _ => true | [] => false end
  | _ => false
  end.

(** The call [playMessage(text)] that settles with [s] makes itself heard. *)
Definition heard (p : Player) (s : Synthesis) : bool :=
  match s with
  | Voice Started | Voice OtherError => audioRef p
  | Voice AbortError => false
  | NoVoice => true
  end.

(** Nothing is playing and the audio element is mounted. *)
Definition silent : Player :=
  {| isAudioPlaying := false; audioRef := true; audio := None; queue := [] |}.

End Speech.

(** ** [ElevenLabsService]: the remote voice *)

Module ElevenLabs.

(** The service as [App] builds it: the two strings of its constructor. *)
Record Service : Type := {
  apiKey : string;
  voiceId : string
}.

(** The request [speak] sends: the address it posts to, the [xi-api-key]
    header, and the [text] and [model_id] of the body (the two voice settings
    are constants and are left out). *)
Record Request : Type := {
  url : string;
  xiApiKey : string;
  text : string;
  modelId : string
}.

(** What the network does with the request: [fetch] rejects; or the response
    is not ok, and its body can or cannot be read as JSON; or the response is
    ok and reading its blob fails; or the blob is read and is given the object
    URL [objectUrl]. *)
Inductive Reply : Type :=
| FetchRejects
| NotOk (readable : bool)
| BlobRejects
| Audio (objectUrl : string).

(** The guard of [speak]: a key or a voice is missing, or the key is the
    placeholder. *)
Definition unconfigured (svc : Service) : bool :=
  negb (Js.nonEmpty (apiKey svc)) || negb (Js.nonEmpty (voiceId svc)) ||
  String.eqb (apiKey svc) "MY_ELEVENLABS_KEY".

Definition request (svc : Service) (message : string) : Request :=
  {| url := "https://api.elevenlabs.io/v1/text-to-speech/" ++ voiceId svc;
     xiApiKey := apiKey svc;
     text := message;
     modelId := "eleven_multilingual_v2" |}.

(** The [try] block of [speak]. *)
Definition trySpeak (reply : Reply) : Exc (option string) :=
  match reply with
  | FetchRejects => Throw "fetch failed"
  | NotOk true => Ok None
  | NotOk false => Throw "SyntaxError"
  | BlobRejects => Throw "blob failed"
  | Audio objectUrl => Ok (Some objectUrl)
  end.

(** [speak(text)], given what the network does: the requests sent, and what
    the promise settles with ([None] is [null]). *)
Definition speak (svc : Service) (message : string) (reply : Reply)
  : list Request * Exc (option string) :=
  if unconfigured svc then ([], Ok None)
  else ([request svc message], tryCatch (trySpeak reply) (fun _ => Ok None)).

End ElevenLabs.

(** ** [SnowflakeService.saveNewPath]: the registry write *)

Module SnowflakeSave.

(** The line feed of a template literal. *)
Definition newline : string := String "010"%char EmptyString.

(** [text.replace(/'/g, "''")]: every single quote is doubled. *)
Fixpoint escape (text : string) : string :=
  match text with
  | EmptyString => EmptyString
  | String c rest =>
      if Ascii.eqb c "'"%char then String "'"%char (String "'"%char (escape rest))
      else String c (escape rest)
  end.

(** The number of single quotes in a text. *)
Fixpoint quotes (text : string) : nat :=
  match text with
  | EmptyString => 0
  | String c rest => (if Ascii.eqb c "'"%char then 1 else 0) + quotes rest
  end.

(** The node handed to [saveNewPath]: a [SpatialNode] without its [id].
    [coordinatesJson] is [JSON.stringify(node.coordinates)]. *)
Record NewNode : Type := {
  buildingId : string;
  coordinatesJson : string;
  description : string;
  isGoldenPath : bool
}.

Definition createTableSql : string :=
  "CREATE TABLE IF NOT EXISTS SPATIAL_REGISTRY (" ++ newline ++
  "      ID STRING," ++ newline ++
  "      BUILDING_ID STRING," ++ newline ++
  "      COORDINATES STRING," ++ newline ++
  "      DESCRIPTION STRING," ++ newline ++
  "      IS_GOLDEN_PATH BOOLEAN" ++ newline ++
  "    )".

(** [insertSql] for the identifier [id], which the service draws at random. *)
Definition insertSql (id : string) (node : NewNode) : string :=
  "INSERT INTO SPATIAL_REGISTRY (ID, BUILDING_ID, COORDINATES, DESCRIPTION, IS_GOLDEN_PATH)"
  ++ newline ++
  "                 VALUES ('" ++ id ++ "', '" ++ buildingId node ++ "', '" ++
  coordinatesJson node ++ "', '" ++ escape (description node) ++ "', " ++
  (if isGoldenPath node then "true" else "false") ++ ")".

(** What the first request, which makes sure the table exists, does: only
    whether [fetch] resolves matters, the response is not read. *)
Inductive Sent : Type :=
| Delivered
| Undelivered.

Section Write.

(** How a template literal prints a value that is not a string. *)
Variable String_of : Snowflake.Json -> string.

Definition print (v : Snowflake.Json) : string :=
  match v with
  | Snowflake.JString text => text
  | other => String_of other
  end.

(** [a || b || fallback], printed. *)
Definition firstTruthy (a b : Snowflake.Value) (fallback : string) : string :=
  if Snowflake.truthy a then match a with Some v => print v | None => fallback end
  else if Snowflake.truthy b then match b with Some v => print v | None => fallback end
  else fallback.

(** [v ? `\n<label>: ${v}` : ""]. *)
Definition labelled (label : string) (v : Snowflake.Value) : string :=
  if Snowflake.truthy v
  then match v with
       | Some x => newline ++ label ++ ": " ++ print x
       | None => EmptyString
       end
  else EmptyString.

(** The message of the error thrown for a reply [data] that does not report
    success. *)
Definition failure (message error hint detail : Snowflake.Value) : string :=
  "Snowflake Save Failed: " ++ firstTruthy message error "Unknown Snowflake error" ++
  labelled "Hint" hint ++ labelled "Detail" detail.

(** [data.code === "000000"]. *)
Definition succeeded (code : Snowflake.Value) : bool :=
  match code with
  | Some (Snowflake.JString text) => String.eqb text "000000"
  | _ => false
  end.

(** The [try] block of [saveNewPath] after the two requests are built. *)
Definition trySave (id : string) (create : Sent) (insert : Snowflake.Response)
  : Exc string :=
  match create with
  | Undelivered => Throw "fetch failed"
  | Delivered =>
      match insert with
      | Snowflake.NetworkError => Throw "fetch failed"
      | Snowflake.NotJson => Throw "SyntaxError"
      | Snowflake.Body data =>
          bind (Snowflake.prop data "code") (fun code =>
          if succeeded code then Ok id
          else
            bind (Snowflake.prop data "message") (fun message =>
            bind (Snowflake.prop data "error") (fun error =>
            bind (Snowflake.prop data "hint") (fun hint =>
            bind (Snowflake.prop data "detail") (fun detail =>
            Throw (failure message error hint detail))))))
      end
  end.

(** The statements [saveNewPath] sends, in order: the second is sent only
    when the first was delivered. *)
Definition statements (id : string) (node : NewNode) (create : Sent) : list string :=
  match create with
  | Delivered => [createTableSql; insertSql id node]
  | Undelivered => [createTableSql]
  end.

(** [saveNewPath(node)]: its [catch] clause logs and throws the error again. *)
Definition saveNewPath (id : string) (node : NewNode) (create : Sent)
           (insert : Snowflake.Response) : list string * Exc string :=
  (statements id node create,
   tryCatch (trySave id create insert) (fun e => Throw e)).

End Write.

End SnowflakeSave.

(** ** [server.ts]: the proxy in front of the registry, up to its request *)

Module Server.

Fixpoint drop (n : nat) (text : string) : string :=
  match n, text with
  | O, _ => text
  | S _, EmptyString => EmptyString
  | S n', String _ rest => drop n' rest
  end.

(** [text] without its ending [suffix], when it ends with it. *)
Fixpoint removeSuffix (suffix text : string) : option string :=
  if String.eqb text suffix then Some EmptyString
  else match text with
       | EmptyString => None
       | String c rest => option_map (String c) (removeSuffix suffix rest)
       end.

(** [account.replace(/^https?:\/\//, "")]. *)
Definition stripScheme (account : string) : string :=
  if Js.startsWith account "https://" then drop 8 account
  else if Js.startsWith account "http://" then drop 7 account
  else account.

Definition domain : string := ".snowflakecomputing.com".

(** [account.replace(/\.snowflakecomputing\.com\/?$/, "")]. *)
Definition stripDomain (account : string) : string :=
  match removeSuffix (domain ++ "/") account with
  | Some rest => rest
  | None =>
      match removeSuffix domain account with
      | Some rest => rest
      | None => account
      end
  end.

Definition sanitize (account : string) : string := stripDomain (stripScheme account).

(** The variables of [process.env] the handler reads: [None] is a variable
    that is not set. *)
Record Env : Type := {
  SNOWFLAKE_ACCOUNT : option string;
  SNOWFLAKE_TOKEN : option string;
  SNOWFLAKE_DATABASE : option string;
  SNOWFLAKE_SCHEMA : option string;
  SNOWFLAKE_WAREHOUSE : option string;
  SNOWFLAKE_ROLE : option string
}.

(** [account] after the sanitising line. *)
Definition account (env : Env) : string :=
  sanitize (match Js.orUndefined (SNOWFLAKE_ACCOUNT env) with
            | Some a => a
            | None => EmptyString
            end).

Definition snowflakeUrl (acct : string) : string :=
  "https://" ++ acct ++ ".snowflakecomputing.com/api/v2/statements".

(** The request sent to the SQL API; an optional field of the body is
    present when its variable is set and not empty. *)
Record Upstream : Type := {
  url : string;
  headers : list (string * string);
  statement : string;
  timeout : Z;
  database : option string;
  schema : option string;
  warehouse : option string;
  role : option string
}.

(** What the handler answers: a status and a JSON body. *)
Record Reply : Type := {
  status : Z;
  body : Snowflake.Json
}.

(** [!account || !token]. *)
Definition credentialsMissing (env : Env) : bool :=
  negb (Js.nonEmpty (account env)) || negb (Js.truthy (SNOWFLAKE_TOKEN env)).

(** The handler of [/api/snowflake/execute] up to its [fetch]: it answers at
    once when the credentials are missing, and else builds the request. *)
Definition prepare (env : Env) (sql : string) : Reply + Upstream :=
  if credentialsMissing env then
    inl {| status := 500;
           body := Snowflake.JObject
                     [("error",
                       Snowflake.JString "Snowflake credentials missing in environment.")] |}
  else
    inr {| url := snowflakeUrl (account env);
           headers :=
             [("Authorization",
               "Bearer " ++ match SNOWFLAKE_TOKEN env with
                            | Some t => t
                            | None => EmptyString
                            end);
              ("Content-Type", "application/json");
              ("Accept", "application/json")];
           statement := sql;
           timeout := 60;
           database := Js.orUndefined (SNOWFLAKE_DATABASE env);
           schema := Js.orUndefined (SNOWFLAKE_SCHEMA env);
           warehouse := Js.orUndefined (SNOWFLAKE_WAREHOUSE env);
           role := Js.orUndefined (SNOWFLAKE_ROLE env) |}.

(** What the registry client reads off an answer of the proxy: it decodes
    the body and does not look at the status. *)
Definition received (reply : Reply) : Snowflake.Response :=
  Snowflake.Body (body reply).

End Server.

(** ** The locale of speech, and counting scans *)

Module Locale.

(** [languageKeywords[name] || 'en-US']: the [lang] [playMessage] gives to an
    utterance of the local synthesis, [name] being the content of
    [currentLanguageRef]. *)
Definition utteranceLang (name : string) : string :=
  match lookup languageKeywords name with
  | Some tag => Js.orElse tag "en-US"
  | None => "en-US"
  end.

(** The locale of the recogniser after the requests [effects], [before]
    being its locale before them. *)
Definition recognitionLang (before : option string) (effects : list App.Effect)
  : option string :=
  fold_left (fun current e =>
               match e with
               | App.SetupSpeechRecognition lang => Some lang
               | _ => current
               end) effects before.

(** The number of scan requests among the events. *)
Fixpoint scans (events : list App.Event) : Z :=
  match events with
  | [] => 0
  | App.ScanRequested _ :: rest => 1 + scans rest
  | _ :: rest => scans rest
  end.

(** What [playMessage] does with what [elevenLabs.speak] settled with:
    [if (voiceUrl)] plays it, with the outcome [play], and else falls back to
    the local synthesis, as its [catch] clause does. *)
Definition synthesis (voiceUrl : Exc (option string)) (play : Speech.Play)
  : Speech.Synthesis :=
  match voiceUrl with
  | Ok v => if Js.truthy v then Speech.Voice play else Speech.NoVoice
  | Throw _ => Speech.NoVoice
  end.

End Locale.

(** ** The messages of a turn, played one after the other *)

Module Playback.


End Playback.

(** ** Sample data for the worked examples *)

Module Scenario.

(** A scene with a hazard and with guidance. *)
Definition corridor : Gemini.SceneAnalysis :=
  {| Gemini.description := "Corridor ahead, doors on both sides.";
     Gemini.hazard := Some "Wet floor at 12 o'clock.";
     Gemini.navigation := Some "Turn slightly left." |}.

(** The vision service sees [corridor]; the registry finds nothing and
    saves what it is given. *)
Definition sees : App.Answers :=
  {| App.locations := []; App.generate := Gemini.Text (Gemini.ParsedObject corridor);
     App.saved := Ok "node_k3x9q2m1a"; App.verified := []; App.random := (12, 57)%Z |}.

(** Every service is out of reach. *)
Definition outage : App.Answers :=
  {| App.locations := []; App.generate := Gemini.Rejects;
     App.saved := Throw "Failed to fetch"; App.verified := [];
     App.random := (12, 57)%Z |}.

(** A verified node of the registry. *)
Definition mainExit : App.SpatialNode :=
  {| App.id := "node_1"; App.buildingId := App.building;
     App.coordinates := (10, 20)%Z; App.description := "Main exit";
     App.isGoldenPath := true |}.

(** The component after its mount, with an empty registry and with one
    verified node. *)
Definition fresh : App.World := App.mounted [].
Definition start : App.World := App.mounted [mainExit].

(** A scan while every service is out of reach. *)
Definition failedScan : App.World := App.step fresh (App.ScanRequested outage).


(** The user asks for the exit while the registry is out of reach. *)
Definition exitAsked : App.World := App.step start (App.VoiceResult "exit" outage).

(** The user asks where the exit is, then asks a question, or scans. *)
Definition whereAsked : App.World :=
  App.step fresh (App.VoiceResult "where is the exit" sees).
Definition thenAsked : App.World :=
  App.step whereAsked (App.VoiceResult "what is in front of me" sees).
Definition thenScanned : App.World :=
  App.step whereAsked (App.ScanRequested sees).

(** An utterance naming two languages to translate to. *)
Definition twoLanguages : string := "translate to french and translate to spanish".
Definition translated : App.World :=
  App.step fresh (App.VoiceResult twoLanguages sees).

(** A request to translate what the camera shows. *)
Definition readSign : string := "Translate to French what the sign says".

(** The user switches language by voice, picks a language in the menu, and
    then asks to pin: no scene has been analysed so far. *)
Definition beforePin : App.World :=
  App.run fresh [App.VoiceResult "switch to french" sees;
                 App.LanguageSelected "English"].
Definition afterPin : App.World :=
  App.step beforePin (App.VoiceResult "pin this" sees).

(** Two messages: the first is played by the audio element, the second is
    spoken by the local synthesis because no voice came back; then the audio
    element reaches the end of the first. *)
Definition overlap : Speech.Player :=
  Speech.run Speech.silent
    [Speech.Call "A"; Speech.Settle "A" (Speech.Voice Speech.Started);
     Speech.Call "B"; Speech.Settle "B" Speech.NoVoice].
Definition overlapEnded : Speech.Player := Speech.step overlap Speech.Ended.

(** Two messages played by the audio element: the first ends while the
    voice of the second is still being fetched. *)
Definition lateStart : Speech.Player :=
  Speech.run Speech.silent
    [Speech.Call "A"; Speech.Settle "A" (Speech.Voice Speech.Started);
     Speech.Call "B"; Speech.Ended; Speech.Settle "B" (Speech.Voice Speech.Started)].

(** The second call is made while the voice of the first is still being
    fetched: the first settles last; or the first settles without a voice
    before the second settles with one. *)
Definition lateSettle : Speech.Player :=
  Speech.run Speech.silent
    [Speech.Call "A"; Speech.Call "B";
     Speech.Settle "B" (Speech.Voice Speech.Started);
     Speech.Settle "A" (Speech.Voice Speech.Started)].
Definition crossed : Speech.Player :=
  Speech.run Speech.silent
    [Speech.Call "A"; Speech.Call "B";
     Speech.Settle "A" Speech.NoVoice;
     Speech.Settle "B" (Speech.Voice Speech.Started)].


(** A stand-in for [JSON.parse] on the coordinates cell: one text parses,
    every other value is refused. *)
Definition parseCell (v : Snowflake.Value) : Exc Snowflake.Json :=
  match v with
  | Some (Snowflake.JString text) =>
      if String.eqb text "{x:10,y:20}"
      then Ok (Snowflake.JObject [("x", Snowflake.JNumber 10); ("y", Snowflake.JNumber 20)])
      else Throw "SyntaxError"
  | _ => Throw "SyntaxError"
  end.

Definition goodRow : Snowflake.Json :=
  Snowflake.JArray
    [Snowflake.JString "node_1"; Snowflake.JString "uni_library_main";
     Snowflake.JString "{x:10,y:20}"; Snowflake.JString "Main exit";
     Snowflake.JString "TRUE"].

Definition badRow : Snowflake.Json :=
  Snowflake.JArray
    [Snowflake.JString "node_2"; Snowflake.JString "uni_library_main";
     Snowflake.JString "ten,twenty"; Snowflake.JString "Elevator bank";
     Snowflake.JBool true].

(** A reply of the proxy that reports an error and has no data. *)
Definition errorBody : Snowflake.Json :=
  Snowflake.JObject [("error", Snowflake.JString "Snowflake credentials missing in environment.")].

End Scenario.

(** ** More sample data *)

Module Cases.

(** The registry finds the main exit. *)
Definition found : App.Answers :=
  {| App.locations := [Scenario.mainExit];
     App.generate := Gemini.Text (Gemini.ParsedObject Scenario.corridor);
     App.saved := Ok "node_k3x9q2m1a"; App.verified := [Scenario.mainExit];
     App.random := (12, 57)%Z |}.

(** A render that holds a scene description. *)
Definition described : App.State :=
  {| App.isLoading := false;
     App.lastDescription := "Corridor ahead, doors on both sides.";
     App.lastSceneDescription := "Corridor ahead, doors on both sides.";
     App.navigationTarget := None; App.currentLanguage := "English";
     App.solanaBalance := 1250; App.goldenPath := []; App.error := None |}.

(** The same render while a turn is running. *)
Definition busy : App.State :=
  {| App.isLoading := true;
     App.lastDescription := "Corridor ahead, doors on both sides.";
     App.lastSceneDescription := "Corridor ahead, doors on both sides.";
     App.navigationTarget := None; App.currentLanguage := "English";
     App.solanaBalance := 1250; App.goldenPath := []; App.error := None |}.

(** A service with no key, and one with a key and the default voice. *)
Definition noKey : ElevenLabs.Service :=
  {| ElevenLabs.apiKey := EmptyString; ElevenLabs.voiceId := "pMs7uS297jtjz4kyM997" |}.
Definition withKey : ElevenLabs.Service :=
  {| ElevenLabs.apiKey := "sk_0123456789"; ElevenLabs.voiceId := "pMs7uS297jtjz4kyM997" |}.

(** A node whose description has an apostrophe. *)
Definition cafe : SnowflakeSave.NewNode :=
  {| SnowflakeSave.buildingId := "uni_library_main";
     SnowflakeSave.coordinatesJson := "{x:12,y:57}";
     SnowflakeSave.description := "Door of the students' cafe";
     SnowflakeSave.isGoldenPath := false |}.

(** A stand-in for the printing of a value that is not a string. *)
Definition printOther (v : Snowflake.Json) : string := "[object Object]".

(** The reply of the SQL API to a statement that ran. *)
Definition ran : Snowflake.Json :=
  Snowflake.JObject [("code", Snowflake.JString "000000");
                     ("message", Snowflake.JString "Statement executed successfully.")].

(** An environment without a token, and one with everything set. *)
Definition noToken : Server.Env :=
  {| Server.SNOWFLAKE_ACCOUNT := Some "UF75979.us-east-1";
     Server.SNOWFLAKE_TOKEN := None;
     Server.SNOWFLAKE_DATABASE := None; Server.SNOWFLAKE_SCHEMA := None;
     Server.SNOWFLAKE_WAREHOUSE := None; Server.SNOWFLAKE_ROLE := None |}.

End Cases.

(** * Properties *)

(** ** Strings *)

Section StringFacts.

Lemma startsWith_toLowerCase (k s : string) :
  Js.startsWith s k = true ->
  Js.startsWith (Js.toLowerCase s) (Js.toLowerCase k) = true.
Proof.
  revert s; induction k as [|a k IH]; intros s H; [reflexivity|].
  destruct s as [|b s]; simpl in *; [discriminate|].
  destruct (Ascii.eqb a b) eqn:E; [|discriminate].
  apply Ascii.eqb_eq in E; subst b.
  rewrite Ascii.eqb_refl. now apply IH.
Qed.

Lemma includes_unfold (s k : string) :
  Js.includes s k =
    if Js.startsWith s k then true
    else match s with
         | EmptyString => false
         | String _ s' => Js.includes s' k
         end.
Proof. destruct s; reflexivity. Qed.

(** Lower-casing the utterance keeps every occurrence of a keyword that is
    written in lower case. *)
Lemma includes_toLowerCase (k s : string) :
  Js.toLowerCase k = k ->
  Js.includes s k = true -> Js.includes (Js.toLowerCase s) k = true.
Proof.
  intros Hk; induction s as [|c s IH]; intros H;
    rewrite includes_unfold in H;
    match type of H with context [Js.startsWith ?t k] =>
      destruct (Js.startsWith t k) eqn:E end.
  - apply startsWith_toLowerCase in E. rewrite Hk in E.
    now rewrite includes_unfold, E.
  - discriminate.
  - apply startsWith_toLowerCase in E. rewrite Hk in E.
    now rewrite includes_unfold, E.
  - change (Js.toLowerCase (String c s))
      with (String (Js.lowerChar c) (Js.toLowerCase s)).
    rewrite includes_unfold. cbv beta iota.
    rewrite (IH H).
    now destruct (Js.startsWith (String (Js.lowerChar c) (Js.toLowerCase s)) k).
Qed.

Lemma startsWith_append (k rest : string) : Js.startsWith (k ++ rest) k = true.
Proof.
  induction k as [|a k IH]; [reflexivity|].
  simpl. now rewrite Ascii.eqb_refl.
Qed.

(** A template literal includes what is spliced into it. *)
Lemma includes_append (before k rest : string) :
  Js.includes (before ++ k ++ rest) k = true.
Proof.
  induction before as [|c before IH].
  - change (EmptyString ++ k ++ rest) with (k ++ rest).
    now rewrite includes_unfold, startsWith_append.
  - change (String c before ++ k ++ rest) with (String c (before ++ k ++ rest)).
    rewrite includes_unfold. cbv beta iota. rewrite IH.
    now destruct (Js.startsWith (String c (before ++ k ++ rest)) k).
Qed.

Lemma someIncluded_true (keywords : list string) (s : string) :
  Js.someIncluded keywords s = true <->
  exists k, In k keywords /\ Js.includes s k = true.
Proof. unfold Js.someIncluded. apply existsb_exists. Qed.

End StringFacts.

(** ** The intent of an utterance *)

Example classify_pin_exit : classify "Save the EXIT" = PinLocation.
Proof. reflexivity. Qed.

Example classify_switch_first :
  classify "save and switch to French" = LanguageSwitch "French".
Proof. reflexivity. Qed.

Example classify_nav :
  classify "Where is the restroom" = NavigateTo "Where is the restroom".
Proof. reflexivity. Qed.

Example classify_question :
  classify "what is in front of me" = FreeformQuestion "what is in front of me".
Proof. reflexivity. Qed.

(** [classify] read off its three tests. *)
Lemma classify_PinLocation (question : string) :
  classify question = PinLocation <->
  detectLanguage languageKeywords (Js.toLowerCase question) = None /\
  isPinIntent (Js.toLowerCase question) = true.
Proof.
  unfold classify.
  destruct (detectLanguage languageKeywords (Js.toLowerCase question)) as [l|].
  - split; [discriminate | intros [H _]; discriminate].
  - destruct (isPinIntent (Js.toLowerCase question)).
    + split; auto.
    + destruct (isNavIntent (Js.toLowerCase question));
        (split; [discriminate | intros [_ H]; discriminate]).
Qed.

Lemma classify_analysed (question : string) :
  detectLanguage languageKeywords (Js.toLowerCase question) = None ->
  isPinIntent (Js.toLowerCase question) = false ->
  classify question =
    if isNavIntent (Js.toLowerCase question) then NavigateTo question
    else FreeformQuestion question.
Proof. intros HL HP. unfold classify. now rewrite HL, HP. Qed.

(** The keywords are written in lower case. *)
Lemma pinKeywords_lower (k : string) : In k pinKeywords -> Js.toLowerCase k = k.
Proof.
  unfold pinKeywords. simpl.
  intros H. repeat (destruct H as [H|H]; [subst k; reflexivity|]). contradiction.
Qed.

(** ** The turns of the component *)

Section Turns.

Import App.

#[local] Arguments targetLangForThisRequest : simpl never.
#[local] Arguments getSystemMessage : simpl never.
#[local] Arguments listening : simpl never.
#[local] Arguments Js.toLowerCase : simpl never.
#[local] Arguments Js.includes : simpl never.
#[local] Arguments Js.orUndefined : simpl never.
#[local] Arguments Js.orElse : simpl never.
#[local] Arguments Z.add : simpl never.
#[local] Arguments String.append : simpl never.

Lemma spoken_app (l l' : list Effect) :
  spoken (l ++ l') = (spoken l ++ spoken l')%list.
Proof.
  induction l as [|e l IH]; [reflexivity|].
  destruct e; simpl; now rewrite IH.
Qed.

(** What an accepted voice turn does when the utterance is neither a
    language switch nor a pin request. *)
Lemma voice_turn_analysed (r : State) (question : string) (a : Answers) (w : World) :
  videoRef w = true -> canvasRef w = true -> isLoading r = false ->
  detectLanguage languageKeywords (Js.toLowerCase question) = None ->
  isPinIntent (Js.toLowerCase question) = false ->
  let lowerQuestion := Js.toLowerCase question in
  let w' := handleUserQuestion r question a w in
  log w' =
    (log w ++
     (if isNavIntent lowerQuestion then announcement r question a else []) ++
     DescribeScene (Some question) (Js.orUndefined (navigationTarget r))
       (targetLangForThisRequest lowerQuestion (currentLanguageRef w)) ::
     answerSpeech (Gemini.describeScene (generate a)))%list /\
  navigationTarget (store w') =
    (if isNavIntent lowerQuestion then
       match locations a with
       | first :: _ => Some (description first)
       | [] => Some question
       end
     else navigationTarget (store w)) /\
  isLoading (store w') = false /\
  currentLanguage (store w') = currentLanguage (store w) /\
  currentLanguageRef w' = currentLanguageRef w /\
  solanaBalance (store w') = solanaBalance (store w) /\
  goldenPath (store w') = goldenPath (store w) /\
  recognition w' = recognition w.
Proof.
  intros Hv Hc Hl Hd Hp lowerQuestion w'. subst w' lowerQuestion.
  unfold handleUserQuestion. rewrite Hv, Hc, Hl. cbn [negb orb].
  rewrite Hd, Hp.
  unfold exec, tryCatchFinally, answerQuestion, describeScene, deref, when,
    playMessage, bindM, act, await, ret, throw, announcement, answerSpeech.
  unfold Js.orUndefined.
  destruct (isNavIntent (Js.toLowerCase question));
    destruct (locations a) as [|first rest];
    destruct (Gemini.describeScene (generate a)) as [[[d h [n|]]|]|e]; simpl;
    try destruct (Js.nonEmpty n); simpl;
    rewrite <- ?app_assoc; simpl; repeat split; reflexivity.
Qed.

(** What an accepted scan turn does. *)
Lemma scan_turn (r : State) (a : Answers) (w : World) :
  videoRef w = true -> canvasRef w = true -> isLoading r = false ->
  let w' := captureAndAnalyze r a w in
  log w' =
    (log w ++
     DescribeScene None (Js.orUndefined (navigationTarget r)) (currentLanguageRef w) ::
     scanSpeech r (Gemini.describeScene (generate a)))%list /\
  isLoading (store w') = false /\
  solanaBalance (store w') =
    (solanaBalance (store w) +
     match Gemini.describeScene (generate a) with Ok (Some _) => 5 | _ => 0 end)%Z /\
  navigationTarget (store w') = navigationTarget (store w) /\
  currentLanguage (store w') = currentLanguage (store w) /\
  currentLanguageRef w' = currentLanguageRef w.
Proof.
  intros Hv Hc Hl w'. subst w'.
  unfold captureAndAnalyze. rewrite Hv, Hc, Hl. cbn [negb orb].
  unfold exec, tryCatchFinally, analyzeScan, describeScene, deref, when,
    playMessage, playHazardAlert, bindM, act, await, ret, throw, scanSpeech.
  unfold Js.orUndefined.
  destruct (Gemini.describeScene (generate a)) as [[[d [h|] [n|]]|]|e]; simpl;
    try destruct (Js.nonEmpty h); try destruct (Js.nonEmpty n);
    destruct (navigationTarget r) as [t|]; simpl;
    try destruct (Js.nonEmpty t); simpl;
    rewrite <- ?app_assoc; simpl; rewrite ?Z.add_0_r;
    repeat split; reflexivity.
Qed.

(** [pinLocation] returns at once when its render has nothing to pin or is
    loading. *)
Lemma pinLocation_guarded (r : State) (a : Answers) (w : World) :
  Js.nonEmpty (Js.orElse (lastSceneDescription r) (lastDescription r)) = false \/
  isLoading r = true ->
  exec (pinLocation r a) w = w.
Proof.
  intros H. unfold pinLocation, exec.
  destruct H as [H|H]; rewrite H; cbn [negb orb]; [reflexivity|].
  now rewrite orb_true_r.
Qed.

(** Past its guard, [pinLocation] asks the registry to save. *)
Lemma pinLocation_saves (r : State) (a : Answers) (w : World) :
  Js.nonEmpty (Js.orElse (lastSceneDescription r) (lastDescription r)) = true ->
  isLoading r = false ->
  log (exec (pinLocation r a) w) = (log w ++ pinEffects r a)%list.
Proof.
  intros Hd Hl. unfold pinLocation, exec. rewrite Hd, Hl. cbn [negb orb].
  unfold tryCatchFinally, playMessage, bindM, act, await, ret, pinEffects.
  destruct (saved a); simpl; rewrite <- ?app_assoc; reflexivity.
Qed.

(** The promise of [pinLocation] never rejects: its [catch] clause handles
    what the save throws. *)
Lemma pinLocation_resolves (r : State) (a : Answers) (w : World) :
  fst (pinLocation r a w) = Ok tt.
Proof.
  unfold pinLocation.
  destruct (negb (Js.nonEmpty (Js.orElse (lastSceneDescription r) (lastDescription r)))
            || isLoading r); [reflexivity|].
  unfold tryCatchFinally, playMessage, bindM, act, await, ret.
  now destruct (saved a).
Qed.

(** What an accepted voice turn does when the utterance is a pin request. *)
Lemma voice_turn_pin (r : State) (question : string) (a : Answers) (w : World) :
  videoRef w = true -> canvasRef w = true -> isLoading r = false ->
  classify question = PinLocation ->
  handleUserQuestion r question a w =
    setIsLoading false
      (exec (pinLocation r a)
         (setLastDescription (listening question) (setIsLoading true w))).
Proof.
  intros Hv Hc Hl Hq. apply classify_PinLocation in Hq. destruct Hq as [Hd Hp].
  unfold handleUserQuestion. rewrite Hv, Hc, Hl. cbn [negb orb].
  rewrite Hd, Hp. unfold exec, bindM, act. simpl.
  pose proof (pinLocation_resolves r a
                (setLastDescription (listening question) (setIsLoading true w))) as H.
  destruct (pinLocation r a _) as [res w1]. simpl in H. now subst res.
Qed.

(** *** Pin before navigate *)

(** C1.  An accepted utterance that contains a pin keyword and a navigate
    keyword, as it was said or once it is lower-cased, and in which the
    language-switch loop finds nothing, is handled as a pin request and not
    as a navigation request, because the handler tests the pin keywords
    first: it shows its placeholder, runs [pinLocation] and returns.  What it
    asks of its collaborators is what [pinLocation] asks (nothing when its
    render has nothing to pin): the registry is not searched, no analysis is
    requested, and the navigation target is left as it is. *)
Theorem pin_before_navigate (r : State) (question : string) (a : Answers) (w : World) :
  videoRef w = true -> canvasRef w = true -> isLoading r = false ->
  (exists k, In k pinKeywords /\
             (Js.includes question k = true \/
              Js.includes (Js.toLowerCase question) k = true)) ->
  (exists k, In k navKeywords /\
             (Js.includes question k = true \/
              Js.includes (Js.toLowerCase question) k = true)) ->
  detectLanguage languageKeywords (Js.toLowerCase question) = None ->
  let w' := handleUserQuestion r question a w in
  w' = setIsLoading false
         (exec (pinLocation r a)
            (setLastDescription (listening question) (setIsLoading true w))) /\
  log w' =
    (log w ++
     if Js.nonEmpty (Js.orElse (lastSceneDescription r) (lastDescription r))
     then pinEffects r a else [])%list /\
  navigationTarget (store w') = navigationTarget (store w) /\
  lastDescription (store w') = listening question /\
  isLoading (store w') = false /\
  classify question = PinLocation /\
  forall target, classify question <> NavigateTo target.
Proof.
  intros Hv Hc Hl (k & Hk & Hin) _ Hlang w'.
  assert (Hlow : Js.includes (Js.toLowerCase question) k = true).
  { destruct Hin as [Hraw|Hlow]; [|exact Hlow].
    apply includes_toLowerCase; [now apply pinKeywords_lower | exact Hraw]. }
  assert (H : classify question = PinLocation).
  { apply classify_PinLocation. split; [exact Hlang|].
    apply someIncluded_true. now exists k. }
  assert (Hw : w' = setIsLoading false
                      (exec (pinLocation r a)
                         (setLastDescription (listening question) (setIsLoading true w))))
    by (subst w'; now apply voice_turn_pin).
  split; [exact Hw|].
  repeat split; try exact H; try (intros target; rewrite H; discriminate);
    rewrite Hw; unfold pinLocation, exec, pinEffects; rewrite Hl;
    destruct (Js.nonEmpty (Js.orElse (lastSceneDescription r) (lastDescription r)));
    cbn [negb orb];
    unfold tryCatchFinally, playMessage, bindM, act, await, ret;
    destruct (saved a); simpl; rewrite <- ?app_assoc, ?app_nil_r; reflexivity.
Qed.

Lemma pin_before_navigate_witness :
  videoRef Scenario.fresh = true /\ canvasRef Scenario.fresh = true /\
  isLoading Cases.described = false /\
  (exists k, In k pinKeywords /\
             (Js.includes "Save the exit" k = true \/
              Js.includes (Js.toLowerCase "Save the exit") k = true)) /\
  (exists k, In k navKeywords /\
             (Js.includes "Save the exit" k = true \/
              Js.includes (Js.toLowerCase "Save the exit") k = true)) /\
  detectLanguage languageKeywords (Js.toLowerCase "Save the exit") = None /\
  log (handleUserQuestion Cases.described "Save the exit" Scenario.sees Scenario.fresh) =
    (log Scenario.fresh ++
     [SaveNewPath building (12, 57)%Z "Corridor ahead, doors on both sides." false;
      FetchGoldenPath building;
      Speak "Location pinned to spatial registry. Awaiting audit."])%list /\
  navigationTarget
    (store (handleUserQuestion Cases.described "Save the exit" Scenario.sees
              Scenario.fresh)) = None.
Proof.
  assert (Hv : videoRef Scenario.fresh = true) by reflexivity.
  assert (Hc : canvasRef Scenario.fresh = true) by reflexivity.
  assert (Hl : isLoading Cases.described = false) by reflexivity.
  assert (Hpin : exists k, In k pinKeywords /\
                   (Js.includes "Save the exit" k = true \/
                    Js.includes (Js.toLowerCase "Save the exit") k = true)).
  { exists "save". split; [simpl; tauto | right; reflexivity]. }
  assert (Hnav : exists k, In k navKeywords /\
                   (Js.includes "Save the exit" k = true \/
                    Js.includes (Js.toLowerCase "Save the exit") k = true)).
  { exists "exit". split; [simpl; tauto | left; reflexivity]. }
  assert (Hlang : detectLanguage languageKeywords (Js.toLowerCase "Save the exit") = None)
    by reflexivity.
  split; [exact Hv|]. split; [exact Hc|]. split; [exact Hl|].
  split; [exact Hpin|]. split; [exact Hnav|]. split; [exact Hlang|].
  destruct (pin_before_navigate Cases.described "Save the exit" Scenario.sees
              Scenario.fresh Hv Hc Hl Hpin Hnav Hlang) as (_ & Hlog & Htarget & _).
  split; [exact Hlog | exact Htarget].
Defined.

(** *** Scan turns and the reward *)

(** C2, as the code has it.  An accepted scan turn always clears the loading
    flag.  A transport or parse error of the vision call is absorbed by the
    call itself, so the turn completes and the reward is added once, as it
    is when the call succeeds; the balance is left alone only when the turn
    itself throws, which it does when the analysis is [null]. *)
Theorem scan_turn_idle_and_reward (r : State) (a : Answers) (w : World) :
  videoRef w = true -> canvasRef w = true -> isLoading r = false ->
  let w' := captureAndAnalyze r a w in
  isLoading (store w') = false /\
  (forall e, Gemini.tryGenerate (generate a) = Throw e ->
             solanaBalance (store w') = (solanaBalance (store w) + 5)%Z) /\
  (forall an, Gemini.tryGenerate (generate a) = Ok (Some an) ->
              solanaBalance (store w') = (solanaBalance (store w) + 5)%Z) /\
  (Gemini.tryGenerate (generate a) = Ok None ->
   solanaBalance (store w') = solanaBalance (store w)).
Proof.
  intros Hv Hc Hl w'.
  destruct (scan_turn r a w Hv Hc Hl) as (_ & Hload & Hbal & _).
  fold w' in Hload, Hbal. unfold Gemini.describeScene in Hbal.
  split; [exact Hload|].
  repeat split; intros; rewrite Hbal;
    match goal with H : Gemini.tryGenerate _ = _ |- _ => rewrite H end;
    simpl; rewrite ?Z.add_0_r; reflexivity.
Qed.

Lemma scan_turn_idle_and_reward_witness :
  videoRef Scenario.start = true /\ canvasRef Scenario.start = true /\
  isLoading (store Scenario.start) = false /\
  isLoading (store (captureAndAnalyze (store Scenario.start) Scenario.outage
                      Scenario.start)) = false /\
  solanaBalance (store (captureAndAnalyze (store Scenario.start) Scenario.outage
                          Scenario.start)) =
    (solanaBalance (store Scenario.start) + 5)%Z.
Proof.
  assert (Hv : videoRef Scenario.start = true) by reflexivity.
  assert (Hc : canvasRef Scenario.start = true) by reflexivity.
  assert (Hl : isLoading (store Scenario.start) = false) by reflexivity.
  split; [exact Hv|]. split; [exact Hc|]. split; [exact Hl|].
  destruct (scan_turn_idle_and_reward (store Scenario.start) Scenario.outage
              Scenario.start Hv Hc Hl) as (Hidle & Hthrow & _).
  split; [exact Hidle|].
  exact (Hthrow "generateContent rejected" eq_refl).
Defined.

(** C2, as it is stated, fails: a scan turn whose vision call is rejected
    still adds the reward. *)
Lemma failed_vision_scan_is_rewarded :
  Gemini.tryGenerate (generate Scenario.outage) = Throw "generateContent rejected" /\
  isLoading (store Scenario.failedScan) = false /\
  solanaBalance (store Scenario.fresh) = 1245%Z /\
  solanaBalance (store Scenario.failedScan) = 1250%Z /\
  solanaBalance (store Scenario.failedScan) <> solanaBalance (store Scenario.fresh).
Proof. vm_compute. repeat split; try reflexivity. discriminate. Qed.

(** *** What is spoken, and in which order *)








(** *** Navigation turns *)

Lemma classify_NavigateTo (question target : string) :
  classify question = NavigateTo target ->
  detectLanguage languageKeywords (Js.toLowerCase question) = None /\
  isPinIntent (Js.toLowerCase question) = false /\
  isNavIntent (Js.toLowerCase question) = true.
Proof.
  unfold classify.
  destruct (detectLanguage languageKeywords (Js.toLowerCase question)); [discriminate|].
  destruct (isPinIntent (Js.toLowerCase question)); [discriminate|].
  destruct (isNavIntent (Js.toLowerCase question)); [auto|discriminate].
Qed.

(** A navigation request is never the empty utterance. *)
Lemma isNavIntent_nonEmpty (question : string) :
  isNavIntent (Js.toLowerCase question) = true -> Js.nonEmpty question = true.
Proof. destruct question; [discriminate | reflexivity]. Qed.

(** Every catalogue splices the parameter into its sign-hunting message. *)
Lemma sign_hunting_carries (r : State) (param : string) :
  Js.includes (getSystemMessage r sign_hunting param) param = true.
Proof.
  unfold getSystemMessage, messages.
  repeat match goal with
         | |- context [if ?b then _ else _] => destruct b
         end;
    cbv beta iota delta [english spanish french german hindi];
    apply includes_append.
Qed.

(** C6, as the code has it.  An accepted navigation turn whose registry
    search finds nothing runs to its end: the target becomes the utterance
    as it was said, the announcement is the sign-hunting message of the
    handler's language carrying that utterance, the analysis is requested
    next, and the loading flag is cleared.  No match flag is kept: the
    sign-hunting mark of the display is computed from the verified path that
    was loaded, and is shown exactly when no verified node's description
    contains the target, both lower-cased by the host. *)
Theorem unmatched_navigation_turn (toLowerCase : string -> string)
        (r : State) (question : string) (a : Answers) (w : World) :
  videoRef w = true -> canvasRef w = true -> isLoading r = false ->
  classify question = NavigateTo question ->
  locations a = [] ->
  let w' := handleUserQuestion r question a w in
  navigationTarget (store w') = Some question /\
  log w' =
    (log w ++
     SearchRegistry question building ::
     Speak (getSystemMessage r sign_hunting question) ::
     DescribeScene (Some question) (Js.orUndefined (navigationTarget r))
       (targetLangForThisRequest (Js.toLowerCase question) (currentLanguageRef w)) ::
     answerSpeech (Gemini.describeScene (generate a)))%list /\
  Js.includes (getSystemMessage r sign_hunting question) question = true /\
  isLoading (store w') = false /\
  huntingSigns toLowerCase (store w') =
    Some (negb (existsb
                  (fun n => Js.includes (toLowerCase (description n))
                                        (toLowerCase question))
                  (goldenPath (store w)))).
Proof.
  intros Hv Hc Hl Hq Hloc w'.
  destruct (classify_NavigateTo _ _ Hq) as (Hd & Hp & Hn).
  destruct (voice_turn_analysed r question a w Hv Hc Hl Hd Hp)
    as (Hlog & Hnav & Hload & _ & _ & _ & Hpath & _).
  fold w' in Hlog, Hnav, Hload, Hpath.
  rewrite Hn in Hlog, Hnav. unfold announcement in Hlog. rewrite Hloc in Hlog, Hnav.
  split; [exact Hnav|]. split; [exact Hlog|].
  split; [apply sign_hunting_carries|]. split; [exact Hload|].
  unfold huntingSigns. rewrite Hnav, Hpath.
  unfold Js.orUndefined, Js.truthy. now rewrite (isNavIntent_nonEmpty _ Hn).
Qed.

Lemma unmatched_navigation_turn_witness :
  videoRef Scenario.fresh = true /\ canvasRef Scenario.fresh = true /\
  isLoading (recognition Scenario.fresh) = false /\
  classify "where is the exit" = NavigateTo "where is the exit" /\
  locations Scenario.sees = [] /\
  navigationTarget (store Scenario.whereAsked) = Some "where is the exit" /\
  huntingSigns Js.toLowerCase (store Scenario.whereAsked) = Some true.
Proof.
  assert (Hv : videoRef Scenario.fresh = true) by reflexivity.
  assert (Hc : canvasRef Scenario.fresh = true) by reflexivity.
  assert (Hl : isLoading (recognition Scenario.fresh) = false) by reflexivity.
  assert (Hq : classify "where is the exit" = NavigateTo "where is the exit")
    by reflexivity.
  assert (Hloc : locations Scenario.sees = []) by reflexivity.
  split; [exact Hv|]. split; [exact Hc|]. split; [exact Hl|].
  split; [exact Hq|]. split; [exact Hloc|].
  destruct (unmatched_navigation_turn Js.toLowerCase (recognition Scenario.fresh)
              "where is the exit" Scenario.sees Scenario.fresh Hv Hc Hl Hq Hloc)
    as (Hnav & _ & _ & _ & Hmark).
  split; [exact Hnav | exact Hmark].
Defined.

(** C6, as it is stated, fails: the registry is out of reach, the search for
    [exit] finds nothing, and yet the target is displayed without the
    sign-hunting mark, because a verified node loaded earlier contains it
    (the texts are ASCII, on which the host lower-cases as [Js.toLowerCase]
    does). *)
Lemma unmatched_target_shown_as_matched :
  classify "exit" = NavigateTo "exit" /\
  locations Scenario.outage = [] /\
  navigationTarget (store Scenario.exitAsked) = Some "exit" /\
  huntingSigns Js.toLowerCase (store Scenario.exitAsked) = Some false.
Proof. vm_compute. repeat split; reflexivity. Qed.

(** C7.  The target handed to the vision call is the one of the render the
    handler closes over, not the one just stored.  From a fresh mount, asking
    where the exit is stores the utterance as the target and asks for the
    analysis without a target; the next voice turn again asks without a
    target; a scan, whose handler belongs to the current render, passes it. *)
Theorem navigation_target_is_stale :
  navigationTarget (store Scenario.whereAsked) = Some "where is the exit" /\
  filter isDescribeScene (since Scenario.fresh Scenario.whereAsked) =
    [DescribeScene (Some "where is the exit") None "English"] /\
  navigationTarget (store Scenario.thenAsked) = Some "where is the exit" /\
  filter isDescribeScene (since Scenario.whereAsked Scenario.thenAsked) =
    [DescribeScene (Some "what is in front of me") None "English"] /\
  filter isDescribeScene (since Scenario.whereAsked Scenario.thenScanned) =
    [DescribeScene None (Some "where is the exit") "English"].
Proof. vm_compute. repeat split; reflexivity. Qed.

(** *** The language of one request *)

Lemma translateTarget_first (before after : list string) (L lowerQuestion current : string) :
  (forall M, In M before ->
     Js.includes lowerQuestion ("translate to " ++ Js.toLowerCase M) = false) ->
  Js.includes lowerQuestion ("translate to " ++ Js.toLowerCase L) = true ->
  translateTarget (before ++ L :: after) lowerQuestion current = L.
Proof.
  intros Hbefore HL. induction before as [|M before IH]; simpl.
  - now rewrite HL.
  - rewrite (Hbefore M (or_introl eq_refl)). apply IH.
    intros M' HM'. apply Hbefore. now right.
Qed.

Lemma translateTarget_none (names : list string) (lowerQuestion current : string) :
  (forall M, In M names ->
     Js.includes lowerQuestion ("translate to " ++ Js.toLowerCase M) = false) ->
  translateTarget names lowerQuestion current = current.
Proof.
  intros H. induction names as [|M names IH]; simpl; [reflexivity|].
  rewrite (H M (or_introl eq_refl)). apply IH.
  intros M' HM'. apply H. now right.
Qed.

(** C8, as the code has it.  In an accepted voice turn that is neither a
    language switch nor a pin request, the vision call is made once, in the
    first language of the table whose [translate to] phrase occurs in the
    lower-cased utterance, or in the language of the reference cell when
    none occurs; the turn changes neither the language state nor the cell. *)
Theorem translate_override (r : State) (question : string) (a : Answers) (w : World) :
  videoRef w = true -> canvasRef w = true -> isLoading r = false ->
  detectLanguage languageKeywords (Js.toLowerCase question) = None ->
  isPinIntent (Js.toLowerCase question) = false ->
  let lowerQuestion := Js.toLowerCase question in
  let w' := handleUserQuestion r question a w in
  let language := targetLangForThisRequest lowerQuestion (currentLanguageRef w) in
  filter isDescribeScene (log w') =
    (filter isDescribeScene (log w) ++
     [DescribeScene (Some question) (Js.orUndefined (navigationTarget r)) language])%list /\
  currentLanguage (store w') = currentLanguage (store w) /\
  currentLanguageRef w' = currentLanguageRef w /\
  (forall before L after,
     map fst languageKeywords = (before ++ L :: after)%list ->
     (forall M, In M before ->
        Js.includes lowerQuestion ("translate to " ++ Js.toLowerCase M) = false) ->
     Js.includes lowerQuestion ("translate to " ++ Js.toLowerCase L) = true ->
     language = L) /\
  ((forall M, In M (map fst languageKeywords) ->
      Js.includes lowerQuestion ("translate to " ++ Js.toLowerCase M) = false) ->
   language = currentLanguageRef w).
Proof.
  intros Hv Hc Hl Hd Hp lowerQuestion w' language.
  destruct (voice_turn_analysed r question a w Hv Hc Hl Hd Hp)
    as (Hlog & _ & _ & Hlang & Href & _).
  fold w' lowerQuestion language in Hlog, Hlang, Href.
  split; [|split; [exact Hlang|split; [exact Href|split]]].
  - rewrite Hlog, !filter_app.
    assert (Hann : filter isDescribeScene
                     (if isNavIntent lowerQuestion then announcement r question a else [])
                   = []).
    { destruct (isNavIntent lowerQuestion); [|reflexivity].
      unfold announcement. now destruct (locations a). }
    assert (Hans : filter isDescribeScene (answerSpeech (Gemini.describeScene (generate a)))
                   = []).
    { unfold answerSpeech.
      destruct (Gemini.describeScene (generate a)) as [[an|]|e]; try reflexivity.
      simpl. now destruct (Js.orUndefined (Gemini.navigation an)). }
    rewrite Hann. simpl. now rewrite Hans.
  - intros before L after Hsplit Hbefore HL.
    subst language. unfold targetLangForThisRequest. rewrite Hsplit.
    now apply translateTarget_first.
  - intros Hnone. subst language. unfold targetLangForThisRequest.
    now apply translateTarget_none.
Qed.

Lemma translate_override_witness :
  videoRef Scenario.fresh = true /\ canvasRef Scenario.fresh = true /\
  isLoading (recognition Scenario.fresh) = false /\
  detectLanguage languageKeywords (Js.toLowerCase Scenario.readSign) = None /\
  isPinIntent (Js.toLowerCase Scenario.readSign) = false /\
  targetLangForThisRequest (Js.toLowerCase Scenario.readSign)
    (currentLanguageRef Scenario.fresh) = "French" /\
  currentLanguage
    (store (handleUserQuestion (recognition Scenario.fresh) Scenario.readSign
              Scenario.sees Scenario.fresh)) = "English" /\
  currentLanguageRef
    (handleUserQuestion (recognition Scenario.fresh) Scenario.readSign
       Scenario.sees Scenario.fresh) = "English".
Proof.
  assert (Hv : videoRef Scenario.fresh = true) by reflexivity.
  assert (Hc : canvasRef Scenario.fresh = true) by reflexivity.
  assert (Hl : isLoading (recognition Scenario.fresh) = false) by reflexivity.
  assert (Hd : detectLanguage languageKeywords (Js.toLowerCase Scenario.readSign) = None)
    by reflexivity.
  assert (Hp : isPinIntent (Js.toLowerCase Scenario.readSign) = false) by reflexivity.
  split; [exact Hv|]. split; [exact Hc|]. split; [exact Hl|].
  split; [exact Hd|]. split; [exact Hp|].
  destruct (translate_override (recognition Scenario.fresh) Scenario.readSign
              Scenario.sees Scenario.fresh Hv Hc Hl Hd Hp)
    as (_ & Hlang & Href & Hfirst & _).
  split; [|split; [exact Hlang | exact Href]].
  apply (Hfirst ["Spanish"] "French"
           ["German"; "Chinese"; "Japanese"; "Hindi"; "English"; "Portuguese"; "Italian"]).
  - reflexivity.
  - intros M [HM|[]]. subst M. reflexivity.
  - reflexivity.
Defined.

(** C8, as it is stated, fails: the utterance contains [translate to french]
    and is neither a language switch nor a pin request, yet the vision call
    is made in Spanish, which comes first in the table and is named too. *)
Lemma translate_first_listed_wins :
  Js.includes (Js.toLowerCase Scenario.twoLanguages) "translate to french" = true /\
  classify Scenario.twoLanguages = FreeformQuestion Scenario.twoLanguages /\
  filter isDescribeScene (since Scenario.fresh Scenario.translated) =
    [DescribeScene (Some Scenario.twoLanguages) None "Spanish"].
Proof. vm_compute. repeat split; reflexivity. Qed.

(** *** Pin turns *)

(** C9, as the code has it.  An accepted pin turn whose render holds no text
    at all to pin, neither a scene description nor anything else in
    [lastDescription], asks nothing of the registry: the log, the verified
    path and the error are as before, and the loading flag is cleared. *)
Theorem pin_without_text_is_noop (r : State) (question : string) (a : Answers) (w : World) :
  videoRef w = true -> canvasRef w = true -> isLoading r = false ->
  classify question = PinLocation ->
  lastSceneDescription r = EmptyString ->
  lastDescription r = EmptyString ->
  let w' := handleUserQuestion r question a w in
  log w' = log w /\
  filter isSave (since w w') = [] /\
  goldenPath (store w') = goldenPath (store w) /\
  error (store w') = error (store w) /\
  isLoading (store w') = false.
Proof.
  intros Hv Hc Hl Hq Hs Hd w'. subst w'.
  rewrite (voice_turn_pin r question a w Hv Hc Hl Hq).
  rewrite pinLocation_guarded by (left; now rewrite Hs, Hd).
  unfold since. simpl. rewrite skipn_all. repeat split; reflexivity.
Qed.

Lemma pin_without_text_is_noop_witness :
  videoRef Scenario.fresh = true /\ canvasRef Scenario.fresh = true /\
  isLoading (recognition Scenario.fresh) = false /\
  classify "pin this" = PinLocation /\
  lastSceneDescription (recognition Scenario.fresh) = EmptyString /\
  lastDescription (recognition Scenario.fresh) = EmptyString /\
  log (handleUserQuestion (recognition Scenario.fresh) "pin this" Scenario.sees
         Scenario.fresh) = log Scenario.fresh.
Proof.
  assert (Hv : videoRef Scenario.fresh = true) by reflexivity.
  assert (Hc : canvasRef Scenario.fresh = true) by reflexivity.
  assert (Hl : isLoading (recognition Scenario.fresh) = false) by reflexivity.
  assert (Hq : classify "pin this" = PinLocation) by reflexivity.
  assert (Hs : lastSceneDescription (recognition Scenario.fresh) = EmptyString)
    by reflexivity.
  assert (Hd : lastDescription (recognition Scenario.fresh) = EmptyString)
    by reflexivity.
  split; [exact Hv|]. split; [exact Hc|]. split; [exact Hl|].
  split; [exact Hq|]. split; [exact Hs|]. split; [exact Hd|].
  destruct (pin_without_text_is_noop (recognition Scenario.fresh) "pin this"
              Scenario.sees Scenario.fresh Hv Hc Hl Hq Hs Hd) as (Hlog & _).
  exact Hlog.
Defined.

(** C9, as it is stated, fails: no scene has been analysed, yet the pin turn
    saves a node, whose description is the placeholder an earlier voice turn
    left in [lastDescription]. *)
Lemma placeholder_is_pinned :
  classify "pin this" = PinLocation /\
  filter isDescribeScene (log Scenario.beforePin) = [] /\
  lastSceneDescription (store Scenario.beforePin) = EmptyString /\
  lastSceneDescription (recognition Scenario.beforePin) = EmptyString /\
  filter isSave (since Scenario.beforePin Scenario.afterPin) =
    [SaveNewPath building (12, 57)%Z (listening "switch to french") false].
Proof. vm_compute. repeat split; reflexivity. Qed.

End Turns.

(** ** The vision call *)

(** C4, as the code has it.  Whatever the awaited call or the parsing throws,
    [describeScene] does not throw: it resolves with the fallback analysis of
    its [catch] clause, whose description and hazard are the two sentences
    below and whose guidance is null. *)
Theorem describeScene_fails_closed (g : Gemini.Generate) (e : string) :
  Gemini.tryGenerate g = Throw e ->
  Gemini.describeScene g =
    Ok (Some {| Gemini.description := "I'm having trouble seeing the path right now.";
                Gemini.hazard := Some "Visual system error.";
                Gemini.navigation := None |}).
Proof. intros H. unfold Gemini.describeScene. now rewrite H. Qed.

Lemma describeScene_fails_closed_witness :
  Gemini.tryGenerate (Gemini.Text Gemini.SyntaxError) = Throw "SyntaxError" /\
  Gemini.describeScene (Gemini.Text Gemini.SyntaxError) =
    Ok (Some {| Gemini.description := "I'm having trouble seeing the path right now.";
                Gemini.hazard := Some "Visual system error.";
                Gemini.navigation := None |}).
Proof.
  split; [reflexivity|].
  exact (describeScene_fails_closed (Gemini.Text Gemini.SyntaxError) "SyntaxError" eq_refl).
Defined.

(** C4, as it is stated, fails: on a transport error the analysis returned is
    not the one with the description [unable to see clearly] and the hazard
    [system error]. *)
Lemma fallback_is_not_the_stated_default :
  Gemini.tryGenerate Gemini.Rejects = Throw "generateContent rejected" /\
  Gemini.describeScene Gemini.Rejects <>
    Ok (Some {| Gemini.description := "unable to see clearly";
                Gemini.hazard := Some "system error";
                Gemini.navigation := None |}).
Proof. split; [reflexivity | discriminate]. Qed.

(** The promise of [describeScene] never rejects. *)
Lemma describeScene_resolves (g : Gemini.Generate) :
  exists analysis, Gemini.describeScene g = Ok analysis.
Proof. destruct g as [| |[| |an]]; eexists; reflexivity. Qed.

Example describeScene_no_text :
  Gemini.describeScene Gemini.NoText =
    Ok (Some {| Gemini.description := "I cannot see clearly."; Gemini.hazard := None;
                Gemini.navigation := None |}).
Proof. reflexivity. Qed.

(** ** The registry reads *)

Example searchRegistry_rows :
  Snowflake.searchRegistry Scenario.parseCell "exit" "uni_library_main"
    (Snowflake.Body (Snowflake.JObject [("data", Snowflake.JArray [Scenario.goodRow])])) =
  Ok [ {| Snowflake.id := Some (Snowflake.JString "node_1");
          Snowflake.buildingId := Some (Snowflake.JString "uni_library_main");
          Snowflake.coordinates :=
            Snowflake.JObject [("x", Snowflake.JNumber 10); ("y", Snowflake.JNumber 20)];
          Snowflake.description := Some (Snowflake.JString "Main exit");
          Snowflake.isGoldenPath := true |} ].
Proof. reflexivity. Qed.

Example searchRegistry_bad_row :
  Snowflake.searchRegistry Scenario.parseCell "e" "uni_library_main"
    (Snowflake.Body
       (Snowflake.JObject [("data", Snowflake.JArray [Scenario.goodRow; Scenario.badRow])])) =
  Ok [].
Proof. reflexivity. Qed.

(** Whatever the [try] block of a read does, the read resolves. *)
Lemma read_resolves (body : Exc (list Snowflake.RowNode)) :
  exists nodes, tryCatch body (fun _ => Ok []) = Ok nodes.
Proof. destruct body; simpl; eauto. Qed.

(** C10.  For every query, building and reply, the two registry reads resolve
    and never reject: whatever is thrown while the request is made, the reply
    decoded or the rows mapped is caught, and the result is then the empty
    list.  In particular a failed request, a reply that is not JSON and a
    reply without a [data] field give the empty list. *)
Theorem registry_reads_degrade (JSON_parse : Snowflake.Value -> Exc Snowflake.Json)
        (query buildingId : string) (r : Snowflake.Response) :
  (exists nodes, Snowflake.searchRegistry JSON_parse query buildingId r = Ok nodes) /\
  (exists nodes, Snowflake.fetchGoldenPath JSON_parse buildingId r = Ok nodes) /\
  (r = Snowflake.NetworkError \/
   r = Snowflake.NotJson \/
   (exists data, r = Snowflake.Body data /\ Snowflake.prop data "data" = Ok None) \/
   (exists e, Snowflake.tryRead JSON_parse r = Throw e) ->
   Snowflake.searchRegistry JSON_parse query buildingId r = Ok [] /\
   Snowflake.fetchGoldenPath JSON_parse buildingId r = Ok []).
Proof.
  unfold Snowflake.searchRegistry, Snowflake.fetchGoldenPath.
  split; [apply read_resolves|]. split; [apply read_resolves|].
  intros [H|[H|[(data & H & Hdata)|(e & H)]]]; subst; simpl; auto.
  - now rewrite Hdata.
  - now rewrite H.
Qed.

Lemma registry_reads_degrade_witness :
  (exists data, Snowflake.Body Scenario.errorBody = Snowflake.Body data /\
                Snowflake.prop data "data" = Ok None) /\
  Snowflake.searchRegistry Scenario.parseCell "where is the exit" "uni_library_main"
    (Snowflake.Body Scenario.errorBody) = Ok [] /\
  Snowflake.fetchGoldenPath Scenario.parseCell "uni_library_main"
    (Snowflake.Body Scenario.errorBody) = Ok [].
Proof.
  assert (H : exists data, Snowflake.Body Scenario.errorBody = Snowflake.Body data /\
                           Snowflake.prop data "data" = Ok None).
  { exists Scenario.errorBody. split; reflexivity. }
  split; [exact H|].
  apply (registry_reads_degrade Scenario.parseCell "where is the exit"
           "uni_library_main" (Snowflake.Body Scenario.errorBody)).
  right. right. left. exact H.
Defined.

(** ** Speech output *)

(** No completion carries a generation: whichever completion event the player
    receives, its handler sets the flag to false. *)
Lemma completion_clears_flag (p : Speech.Player) (e : Speech.Event) :
  Speech.completes p e = true -> Speech.isAudioPlaying (Speech.step p e) = false.
Proof.
  destruct e; simpl; try discriminate.
  - destruct (Speech.audio p); [reflexivity | discriminate].
  - destruct (Speech.queue p); [discriminate | reflexivity].
Qed.

(** C3, as the code has it.  Take [playMessage(A)] and then [playMessage(B)],
    the first having run to its end before the second is called, with no
    completion event in between, from a state in which nothing plays.  If B
    makes itself heard, and unless A plays in the audio element while B falls
    back to the local synthesis for want of a voice, then B is the one
    playback that is active and the flag is true.  The flag is not guarded by
    any generation counter: the completion handlers set it to false whenever
    they run; after B has replaced A the one completion event left is B's
    own, and it leaves nothing active.  Nor is the audio element guarded:
    whichever call settles with a voice takes it, whatever it was playing, so
    a call that settles late displaces the call made after it. *)
Theorem speak_twice_preempts (p : Speech.Player) (A B : string)
        (sa sb : Speech.Synthesis) :
  Speech.audio p = None -> Speech.queue p = [] ->
  Speech.heard p sb = true ->
  ~ (Speech.audioRef p = true /\ sa = Speech.Voice Speech.Started /\ sb = Speech.NoVoice) ->
  let p' := Speech.run p [Speech.Call A; Speech.Settle A sa;
                          Speech.Call B; Speech.Settle B sb] in
  Speech.active p' = [B] /\
  Speech.isAudioPlaying p' = true /\
  (forall e, Speech.completes p' e = true ->
             Speech.isAudioPlaying (Speech.step p' e) = false /\
             Speech.active (Speech.step p' e) = []) /\
  (forall (q : Speech.Player) (e : Speech.Event),
     Speech.completes q e = true -> Speech.isAudioPlaying (Speech.step q e) = false) /\
  (forall (q : Speech.Player) (late : string),
     Speech.audioRef q = true ->
     Speech.audio (Speech.step q (Speech.Settle late (Speech.Voice Speech.Started)))
       = Some late).
Proof.
  intros Hau Hq Hheard Hslip p'. subst p'.
  split; [|split; [|split; [|split]]].
  4: { intros q e. apply completion_clears_flag. }
  4: { intros q late Hq'. simpl. now rewrite Hq'. }
  all: destruct p as [flag ref au q]; simpl in *; subst au q;
    destruct ref, sa as [[]|], sb as [[]|]; simpl in *; try discriminate;
    try (exfalso; apply Hslip; repeat split; reflexivity);
    try reflexivity;
    intros []; simpl; intros; try discriminate; split; reflexivity.
Qed.

Lemma speak_twice_preempts_witness :
  Speech.audio Speech.silent = None /\ Speech.queue Speech.silent = [] /\
  Speech.heard Speech.silent (Speech.Voice Speech.Started) = true /\
  ~ (Speech.audioRef Speech.silent = true /\
     Speech.NoVoice = Speech.Voice Speech.Started /\
     Speech.Voice Speech.Started = Speech.NoVoice) /\
  Speech.active
    (Speech.run Speech.silent
       [Speech.Call "A"; Speech.Settle "A" Speech.NoVoice;
        Speech.Call "B"; Speech.Settle "B" (Speech.Voice Speech.Started)]) = ["B"] /\
  Speech.isAudioPlaying
    (Speech.run Speech.silent
       [Speech.Call "A"; Speech.Settle "A" Speech.NoVoice;
        Speech.Call "B"; Speech.Settle "B" (Speech.Voice Speech.Started)]) = true.
Proof.
  assert (Hau : Speech.audio Speech.silent = None) by reflexivity.
  assert (Hq : Speech.queue Speech.silent = []) by reflexivity.
  assert (Hh : Speech.heard Speech.silent (Speech.Voice Speech.Started) = true)
    by reflexivity.
  assert (Hs : ~ (Speech.audioRef Speech.silent = true /\
                  Speech.NoVoice = Speech.Voice Speech.Started /\
                  Speech.Voice Speech.Started = Speech.NoVoice)).
  { intros (_ & H & _). discriminate H. }
  split; [exact Hau|]. split; [exact Hq|]. split; [exact Hh|]. split; [exact Hs|].
  destruct (speak_twice_preempts Speech.silent "A" "B" Speech.NoVoice
              (Speech.Voice Speech.Started) Hau Hq Hh Hs) as (Hact & Hflag & _).
  split; [exact Hact | exact Hflag].
Defined.

(** C3, as it is stated, fails, in each of the orders in which the two calls
    can run.  One after the other: when A plays in the audio element and B is
    spoken by the local synthesis, both are active after the second call, and
    the end of A sets the flag to false while B is being spoken; and when
    both play in the audio element and A ends while the voice of B is being
    fetched, the end of A sets the flag to false and B then plays with the
    flag still false.  Interleaved, B being called while the voice of A is
    still being fetched: when A settles last, A takes the audio element from
    B and is the one playback left; and when A settles first without a voice,
    A stays in the queue of the local synthesis while B plays in the audio
    element. *)
Lemma stale_completion_clears_flag :
  Speech.active Scenario.overlap = ["A"; "B"] /\
  Speech.isAudioPlaying Scenario.overlap = true /\
  Speech.active Scenario.overlapEnded = ["B"] /\
  Speech.isAudioPlaying Scenario.overlapEnded = false /\
  Speech.active Scenario.lateStart = ["B"] /\
  Speech.isAudioPlaying Scenario.lateStart = false /\
  Speech.active Scenario.lateSettle = ["A"] /\
  Speech.active Scenario.crossed = ["B"; "A"].
Proof. vm_compute. repeat split; reflexivity. Qed.

(** * Further properties *)

(** ** The language table *)

Lemma lookup_in_values (table : list (string * string)) (name tag : string) :
  lookup table name = Some tag -> In tag (map snd table).
Proof.
  induction table as [|[k v] table IH]; cbn [lookup map snd]; [discriminate|].
  destruct (String.eqb k name).
  - intros H. inversion H. now left.
  - intros H. right. now apply IH.
Qed.

Lemma lookup_tag_nonEmpty (name tag : string) :
  lookup languageKeywords name = Some tag -> Js.nonEmpty tag = true.
Proof.
  intros H. apply lookup_in_values in H. simpl in H.
  repeat (destruct H as [H|H]; [subst tag; reflexivity|]). contradiction.
Qed.

(** The locale the recogniser is set up with for a language is the locale the
    local synthesis speaks it in. *)
Lemma setup_lang (name : string) :
  match lookup languageKeywords name with Some tag => tag | None => "en-US" end =
  Locale.utteranceLang name.
Proof.
  unfold Locale.utteranceLang.
  destruct (lookup languageKeywords name) as [tag|] eqn:E; [|reflexivity].
  unfold Js.orElse. now rewrite (lookup_tag_nonEmpty _ _ E).
Qed.

Lemma detectLanguage_in_table (entries : list (string * string)) (lowerQuestion L : string) :
  detectLanguage entries lowerQuestion = Some L -> In L (map fst entries).
Proof.
  induction entries as [|[name tag] entries IH]; cbn [detectLanguage map fst];
    [discriminate|].
  destruct (Js.someIncluded (switchPhrases (Js.toLowerCase name)) lowerQuestion).
  - intros H. inversion H. left. reflexivity.
  - intros H. right. now apply IH.
Qed.

Lemma lookup_in_table (table : list (string * string)) (name : string) :
  In name (map fst table) -> exists tag, lookup table name = Some tag.
Proof.
  induction table as [|[k v] table IH]; simpl; [contradiction|].
  destruct (String.eqb k name) eqn:E; [eauto|].
  intros [H|H]; [|now apply IH].
  subst k. now rewrite String.eqb_refl in E.
Qed.

Section Machine.

Import App.

#[local] Arguments targetLangForThisRequest : simpl never.
#[local] Arguments getSystemMessage : simpl never.
#[local] Arguments listening : simpl never.
#[local] Arguments confirmation : simpl never.
#[local] Arguments detectLanguage : simpl never.
#[local] Arguments isPinIntent : simpl never.
#[local] Arguments isNavIntent : simpl never.
#[local] Arguments lookup : simpl never.
#[local] Arguments Js.toLowerCase : simpl never.
#[local] Arguments Js.includes : simpl never.
#[local] Arguments Js.orUndefined : simpl never.
#[local] Arguments Js.orElse : simpl never.
#[local] Arguments Js.nonEmpty : simpl never.
#[local] Arguments Js.truthy : simpl never.
#[local] Arguments Z.add : simpl never.
#[local] Arguments String.append : simpl never.

(** Unfold one event down to the setters, and split on every test it makes. *)
Ltac split_tests :=
  repeat match goal with
         | |- context [if ?b then _ else _] => destruct b eqn:?
         | |- context [match ?x with Ok _ => _ | Throw _ => _ end] => destruct x eqn:?
         | |- context [match ?x with Some _ => _ | None => _ end] => destruct x eqn:?
         | |- context [match ?x with nil => _ | cons _ _ => _ end] => destruct x eqn:?
         end.

Ltac open_step :=
  unfold step, handleUserQuestion, captureAndAnalyze, exec, pinLocation,
    handleLanguageChange, setupSpeechRecognition, tryCatchFinally, answerQuestion,
    analyzeScan, describeScene, deref, when, playMessage, playHazardAlert,
    bindM, act, await, ret, throw.

(** Whatever reaches the component, it is idle again afterwards: every turn
    that sets the loading flag clears it, also when a service fails. *)
Lemma step_idle (w : World) (e : Event) :
  isLoading (store w) = false -> isLoading (store (step w e)) = false.
Proof.
  intros H. destruct e; open_step; split_tests; simpl; congruence.
Qed.

Lemma run_cons (w : World) (e : Event) (events : list Event) :
  run w (e :: events) = run (step w e) events.
Proof. reflexivity. Qed.

(** X1.  From an idle component, whatever events arrive and whatever the
    services answer, the component is idle again after the last of them. *)
Theorem always_idle (w : World) (events : list Event) :
  isLoading (store w) = false ->
  isLoading (store (run w events)) = false.
Proof.
  revert w. induction events as [|e events IH]; intros w H; [exact H|].
  rewrite run_cons. apply IH. now apply step_idle.
Qed.

Lemma always_idle_witness :
  isLoading (store Scenario.fresh) = false /\
  isLoading (store (run Scenario.fresh
                      [VoiceResult "where is the exit" Scenario.outage;
                       ScanRequested Scenario.outage;
                       VoiceResult "pin this" Scenario.outage;
                       PinRequested Scenario.outage])) = false.
Proof.
  split; [reflexivity|].
  exact (always_idle Scenario.fresh
           [VoiceResult "where is the exit" Scenario.outage;
            ScanRequested Scenario.outage;
            VoiceResult "pin this" Scenario.outage;
            PinRequested Scenario.outage] eq_refl).
Defined.

Lemma step_language_agree (w : World) (e : Event) :
  currentLanguage (store w) = currentLanguageRef w ->
  currentLanguage (store (step w e)) = currentLanguageRef (step w e).
Proof.
  intros H. destruct e; open_step; split_tests; simpl; congruence.
Qed.

(** X2.  The language state and the language reference cell never part:
    if they agree, they agree after any sequence of events. *)
Theorem language_state_and_ref_agree (w : World) (events : list Event) :
  currentLanguage (store w) = currentLanguageRef w ->
  currentLanguage (store (run w events)) = currentLanguageRef (run w events).
Proof.
  revert w. induction events as [|e events IH]; intros w H; [exact H|].
  rewrite run_cons. apply IH. now apply step_language_agree.
Qed.

Lemma language_state_and_ref_agree_witness :
  currentLanguage (store Scenario.fresh) = currentLanguageRef Scenario.fresh /\
  currentLanguage (store Scenario.beforePin) = currentLanguageRef Scenario.beforePin.
Proof.
  split; [reflexivity|].
  exact (language_state_and_ref_agree Scenario.fresh
           [VoiceResult "switch to french" Scenario.sees; LanguageSelected "English"]
           eq_refl).
Defined.

Lemma recognitionLang_app (before : option string) (l l' : list Effect) :
  Locale.recognitionLang before (l ++ l') =
  Locale.recognitionLang (Locale.recognitionLang before l) l'.
Proof. unfold Locale.recognitionLang. apply fold_left_app. Qed.

Lemma step_locale (w : World) (e : Event) :
  Locale.recognitionLang None (log w) = Some (Locale.utteranceLang (currentLanguageRef w)) ->
  Locale.recognitionLang None (log (step w e)) =
    Some (Locale.utteranceLang (currentLanguageRef (step w e))).
Proof.
  intros H. destruct e; open_step; split_tests; simpl;
    rewrite ?recognitionLang_app, ?H; try reflexivity; try congruence;
    unfold Locale.recognitionLang; simpl; rewrite <- setup_lang;
    match goal with E : lookup _ _ = _ |- _ => now rewrite E end.
Qed.

(** X3.  The recogniser and the local synthesis keep to one locale: after
    any sequence of events, the locale the recogniser was last set up with is
    the one [playMessage] gives to an utterance it speaks locally. *)
Theorem recogniser_and_synthesis_share_locale (path : list SpatialNode)
        (events : list Event) :
  Locale.recognitionLang None (log (run (mounted path) events)) =
    Some (Locale.utteranceLang (currentLanguageRef (run (mounted path) events))).
Proof.
  assert (G : forall w,
             Locale.recognitionLang None (log w) =
               Some (Locale.utteranceLang (currentLanguageRef w)) ->
             Locale.recognitionLang None (log (run w events)) =
               Some (Locale.utteranceLang (currentLanguageRef (run w events)))).
  { induction events as [|e events IH]; intros w H; [exact H|].
    rewrite run_cons. apply IH. now apply step_locale. }
  apply G. reflexivity.
Qed.

Lemma step_balance (w : World) (e : Event) :
  solanaBalance (store (step w e)) = solanaBalance (store w) \/
  exists a, e = ScanRequested a /\
            solanaBalance (store (step w e)) = (solanaBalance (store w) + 5)%Z.
Proof.
  destruct e; open_step; split_tests; simpl;
    first [left; reflexivity | right; eexists; split; reflexivity].
Qed.

Lemma scans_nonneg (events : list Event) : (0 <= Locale.scans events)%Z.
Proof.
  induction events as [|e events IH]; [cbn [Locale.scans]; lia|].
  destruct e; cbn [Locale.scans]; lia.
Qed.

(** X4.  Only a scan request touches the reward balance: any other event
    leaves it exactly as it is, and a scan request either leaves it as it is
    or applies the one update [prev => prev + 0.005] once (the 5 of the
    balance counted in thousandths).  So a sequence of events without a scan
    request leaves the balance unchanged. *)
Theorem reward_only_by_scans (w : World) (events : list Event) :
  (forall e,
     solanaBalance (store (step w e)) = solanaBalance (store w) \/
     exists a, e = ScanRequested a /\
               solanaBalance (store (step w e)) = (solanaBalance (store w) + 5)%Z) /\
  (Locale.scans events = 0%Z ->
   solanaBalance (store (run w events)) = solanaBalance (store w)).
Proof.
  split; [intros e; apply step_balance|].
  revert w. induction events as [|e events IH]; intros w H; [reflexivity|].
  rewrite run_cons. pose proof (scans_nonneg events) as Hpos.
  destruct (step_balance w e) as [Hsame|(a & He & _)].
  - rewrite <- Hsame. apply IH.
    destruct e; cbn [Locale.scans] in H; lia.
  - subst e. cbn [Locale.scans] in H. lia.
Qed.

Lemma reward_only_by_scans_witness :
  Locale.scans [VoiceResult "save this place" Scenario.sees; TestVoiceRequested;
                PlaceSelected 0; NavigationCancelled] = 0%Z /\
  solanaBalance
    (store (run Scenario.fresh
              [VoiceResult "save this place" Scenario.sees; TestVoiceRequested;
               PlaceSelected 0; NavigationCancelled])) = 1245%Z.
Proof.
  split; [reflexivity|].
  exact (proj2 (reward_only_by_scans Scenario.fresh
                  [VoiceResult "save this place" Scenario.sees; TestVoiceRequested;
                   PlaceSelected 0; NavigationCancelled]) eq_refl).
Defined.

(** X5.  The navigation target is kept until the user cancels it, asks for
    another by voice, or picks a saved place: a cancellation clears it, a
    click on the card of a saved place makes it that place's description, and
    every other event that is not a navigation request by voice (a scan, a
    pin, a change of language, a question, a small button, a turn that is
    refused) leaves it as it is. *)
Theorem navigation_target_kept (w : World) (e : Event) :
  navigationTarget (store (step w e)) = navigationTarget (store w) \/
  (e = NavigationCancelled /\ navigationTarget (store (step w e)) = None) \/
  (exists question a, e = VoiceResult question a /\
                      classify question = NavigateTo question) \/
  (exists index node,
     e = PlaceSelected index /\
     nth_error (goldenPath (store w)) index = Some node /\
     navigationTarget (store (step w e)) = Some (description node)).
Proof.
  destruct e; open_step; unfold loadSpatialData; open_step; split_tests; simpl;
    first [ left; reflexivity
          | right; left; split; reflexivity
          | right; right; left; do 2 eexists; split; [reflexivity|];
            unfold classify;
            repeat match goal with
                   | E : ?x = _ |- context [?x] => rewrite E
                   end; reflexivity
          | right; right; right; do 2 eexists;
            split; [reflexivity|]; split; [eassumption | reflexivity] ].
Qed.

Example place_selected :
  navigationTarget (store (step Scenario.start (PlaceSelected 0))) = Some "Main exit" /\
  spoken (since Scenario.start (step Scenario.start (PlaceSelected 0))) =
    ["Navigating to Main exit"].
Proof. vm_compute. split; reflexivity. Qed.

(** [handleLanguageChange] written out. *)
Lemma handleLanguageChange_exec (r : State) (langName : string) (w : World) :
  exec (handleLanguageChange r langName) w =
    emit (Speak (confirmation langName))
      (emit (SetupSpeechRecognition (Locale.utteranceLang langName))
         (arm r (setLanguageRef langName (setCurrentLanguage langName w)))).
Proof.
  unfold exec, handleLanguageChange, setupSpeechRecognition, playMessage, bindM, act.
  simpl. now rewrite setup_lang.
Qed.

(** X6.  An accepted utterance in which the language loop finds the language
    [L] switches to it and does nothing else: state and reference cell become
    [L], which is one of the nine languages of the table; the recogniser is
    set up again with the locale of [L], for the handler of the same render;
    the confirmation of [L] is spoken; neither the registry nor the vision
    service is asked anything. *)
Theorem voice_language_switch (r : State) (question L : string) (a : Answers) (w : World) :
  videoRef w = true -> canvasRef w = true -> isLoading r = false ->
  detectLanguage languageKeywords (Js.toLowerCase question) = Some L ->
  let w' := handleUserQuestion r question a w in
  In L (map fst languageKeywords) /\
  lookup languageKeywords L = Some (Locale.utteranceLang L) /\
  currentLanguage (store w') = L /\
  currentLanguageRef w' = L /\
  recognition w' = r /\
  log w' =
    (log w ++ [SetupSpeechRecognition (Locale.utteranceLang L);
               Speak (confirmation L)])%list /\
  isLoading (store w') = false /\
  navigationTarget (store w') = navigationTarget (store w) /\
  lastSceneDescription (store w') = lastSceneDescription (store w).
Proof.
  intros Hv Hc Hl Hd w'.
  assert (Hin : In L (map fst languageKeywords))
    by (eapply detectLanguage_in_table; exact Hd).
  split; [exact Hin|]. split.
  { destruct (lookup_in_table _ _ Hin) as [tag Htag].
    rewrite <- setup_lang, Htag. reflexivity. }
  assert (Hw : w' = setIsLoading false
                      (exec (handleLanguageChange r L)
                         (setLastDescription (listening question) (setIsLoading true w)))).
  { subst w'. unfold handleUserQuestion. rewrite Hv, Hc, Hl. cbn [negb orb].
    rewrite Hd. reflexivity. }
  rewrite Hw, handleLanguageChange_exec. simpl.
  rewrite <- app_assoc. repeat split; reflexivity.
Qed.

Lemma voice_language_switch_witness :
  videoRef Scenario.fresh = true /\ canvasRef Scenario.fresh = true /\
  isLoading (recognition Scenario.fresh) = false /\
  detectLanguage languageKeywords (Js.toLowerCase "Please switch to German") =
    Some "German" /\
  currentLanguageRef
    (handleUserQuestion (recognition Scenario.fresh) "Please switch to German"
       Scenario.sees Scenario.fresh) = "German" /\
  log (handleUserQuestion (recognition Scenario.fresh) "Please switch to German"
         Scenario.sees Scenario.fresh) =
    (log Scenario.fresh ++
     [SetupSpeechRecognition (Locale.utteranceLang "German");
      Speak (confirmation "German")])%list.
Proof.
  assert (Hv : videoRef Scenario.fresh = true) by reflexivity.
  assert (Hc : canvasRef Scenario.fresh = true) by reflexivity.
  assert (Hl : isLoading (recognition Scenario.fresh) = false) by reflexivity.
  assert (Hd : detectLanguage languageKeywords (Js.toLowerCase "Please switch to German")
               = Some "German") by reflexivity.
  split; [exact Hv|]. split; [exact Hc|]. split; [exact Hl|]. split; [exact Hd|].
  destruct (voice_language_switch (recognition Scenario.fresh) "Please switch to German"
              "German" Scenario.sees Scenario.fresh Hv Hc Hl Hd)
    as (_ & _ & _ & Href & _ & Hlog & _).
  split; [exact Href | exact Hlog].
Defined.

(** Every catalogue splices the parameter into its navigating message. *)
Lemma navigating_carries (r : State) (param : string) :
  Js.includes (getSystemMessage r navigating param) param = true.
Proof.
  unfold getSystemMessage, messages.
  repeat match goal with
         | |- context [if ?b then _ else _] => destruct b
         end;
    cbv beta iota delta [english spanish french german hindi];
    first [ apply includes_append
          | apply (includes_append EmptyString) ].
Qed.

(** X7.  An accepted navigation turn whose registry search finds something
    takes the first node found: the target becomes that node's description,
    whatever the utterance was; the announcement is the navigating message of
    the handler's language, which carries that description; the analysis is
    requested next, with the utterance as its question. *)
Theorem matched_navigation_turn (r : State) (question : string) (a : Answers) (w : World)
        (first : SpatialNode) (others : list SpatialNode) :
  videoRef w = true -> canvasRef w = true -> isLoading r = false ->
  classify question = NavigateTo question ->
  locations a = first :: others ->
  let w' := handleUserQuestion r question a w in
  navigationTarget (store w') = Some (description first) /\
  log w' =
    (log w ++
     SearchRegistry question building ::
     Speak (getSystemMessage r navigating (description first)) ::
     DescribeScene (Some question) (Js.orUndefined (navigationTarget r))
       (targetLangForThisRequest (Js.toLowerCase question) (currentLanguageRef w)) ::
     answerSpeech (Gemini.describeScene (generate a)))%list /\
  Js.includes (getSystemMessage r navigating (description first)) (description first)
    = true /\
  isLoading (store w') = false.
Proof.
  intros Hv Hc Hl Hq Hloc w'.
  destruct (classify_NavigateTo _ _ Hq) as (Hd & Hp & Hn).
  destruct (voice_turn_analysed r question a w Hv Hc Hl Hd Hp)
    as (Hlog & Hnav & Hload & _).
  fold w' in Hlog, Hnav, Hload.
  rewrite Hn in Hlog, Hnav. unfold announcement in Hlog. rewrite Hloc in Hlog, Hnav.
  split; [exact Hnav|]. split; [exact Hlog|].
  split; [apply navigating_carries | exact Hload].
Qed.

Lemma matched_navigation_turn_witness :
  videoRef Scenario.fresh = true /\ canvasRef Scenario.fresh = true /\
  isLoading (recognition Scenario.fresh) = false /\
  classify "where is the exit" = NavigateTo "where is the exit" /\
  locations Cases.found = [Scenario.mainExit] /\
  navigationTarget
    (store (handleUserQuestion (recognition Scenario.fresh) "where is the exit"
              Cases.found Scenario.fresh)) = Some "Main exit".
Proof.
  assert (Hv : videoRef Scenario.fresh = true) by reflexivity.
  assert (Hc : canvasRef Scenario.fresh = true) by reflexivity.
  assert (Hl : isLoading (recognition Scenario.fresh) = false) by reflexivity.
  assert (Hq : classify "where is the exit" = NavigateTo "where is the exit")
    by reflexivity.
  assert (Hloc : locations Cases.found = [Scenario.mainExit]) by reflexivity.
  split; [exact Hv|]. split; [exact Hc|]. split; [exact Hl|].
  split; [exact Hq|]. split; [exact Hloc|].
  destruct (matched_navigation_turn (recognition Scenario.fresh) "where is the exit"
              Cases.found Scenario.fresh Scenario.mainExit [] Hv Hc Hl Hq Hloc)
    as (Hnav & _).
  exact Hnav.
Defined.

(** X8.  Past its guard, [pinLocation] asks the registry to save one node,
    in the building of the application, never marked as verified, described
    by the scene description of its render or, when that is empty, by
    [lastDescription].  When the save resolves, the error is cleared, the
    verified path is loaded again and the success message is spoken; when it
    rejects, the error becomes the message thrown, the verified path is left
    alone and the failure message is spoken.  Either way the loading flag is
    cleared and the navigation target is untouched. *)
Theorem pin_saves_unaudited (r : State) (a : Answers) (w : World) :
  Js.nonEmpty (Js.orElse (lastSceneDescription r) (lastDescription r)) = true ->
  isLoading r = false ->
  let w' := exec (pinLocation r a) w in
  log w' =
    (log w ++
     SaveNewPath building (random a)
       (Js.orElse (lastSceneDescription r) (lastDescription r)) false ::
     match saved a with
     | Ok _ => [FetchGoldenPath building; Speak (getSystemMessage r pinned EmptyString)]
     | Throw _ => [Speak (getSystemMessage r pin_failed EmptyString)]
     end)%list /\
  match saved a with
  | Ok _ => error (store w') = None /\ goldenPath (store w') = verified a
  | Throw message =>
      error (store w') = Some message /\ goldenPath (store w') = goldenPath (store w)
  end /\
  isLoading (store w') = false /\
  navigationTarget (store w') = navigationTarget (store w).
Proof.
  intros Hd Hl w'. subst w'.
  unfold pinLocation, exec. rewrite Hd, Hl. cbn [negb orb].
  unfold tryCatchFinally, playMessage, bindM, act, await, ret.
  destruct (saved a); simpl; rewrite <- ?app_assoc; repeat split; reflexivity.
Qed.

Lemma pin_saves_unaudited_witness :
  Js.nonEmpty (Js.orElse (lastSceneDescription Cases.described)
                         (lastDescription Cases.described)) = true /\
  isLoading Cases.described = false /\
  log (exec (pinLocation Cases.described Scenario.outage) Scenario.fresh) =
    (log Scenario.fresh ++
     [SaveNewPath building (12, 57)%Z "Corridor ahead, doors on both sides." false;
      Speak "Failed to save location to registry."])%list.
Proof.
  assert (Hd : Js.nonEmpty (Js.orElse (lastSceneDescription Cases.described)
                                      (lastDescription Cases.described)) = true)
    by reflexivity.
  assert (Hl : isLoading Cases.described = false) by reflexivity.
  split; [exact Hd|]. split; [exact Hl|].
  destruct (pin_saves_unaudited Cases.described Scenario.outage Scenario.fresh Hd Hl)
    as (Hlog & _).
  exact Hlog.
Defined.

(** What an accepted scan that is given an analysis leaves in the two
    description variables. *)
Lemma scan_turn_descriptions (r : State) (a : Answers) (w : World)
      (an : Gemini.SceneAnalysis) :
  videoRef w = true -> canvasRef w = true -> isLoading r = false ->
  Gemini.describeScene (generate a) = Ok (Some an) ->
  lastDescription (store (captureAndAnalyze r a w)) = Gemini.description an /\
  lastSceneDescription (store (captureAndAnalyze r a w)) = Gemini.description an.
Proof.
  intros Hv Hc Hl Han.
  unfold captureAndAnalyze. rewrite Hv, Hc, Hl. cbn [negb orb].
  unfold exec, tryCatchFinally, analyzeScan, describeScene, deref, when,
    playMessage, playHazardAlert, bindM, act, await, ret, throw.
  rewrite Han. split_tests; simpl; split; reflexivity.
Qed.

(** X9.  Scan, then pin: after an accepted scan that was given an analysis
    whose description is not empty, the pin button saves one node, described
    by exactly that description (which is the fallback sentence when the
    vision call failed). *)
Theorem scan_then_pin (w : World) (a1 a2 : Answers) (an : Gemini.SceneAnalysis) :
  videoRef w = true -> canvasRef w = true -> isLoading (store w) = false ->
  Gemini.describeScene (generate a1) = Ok (Some an) ->
  Js.nonEmpty (Gemini.description an) = true ->
  exists rest,
    log (run w [ScanRequested a1; PinRequested a2]) =
      (log (step w (ScanRequested a1)) ++
       SaveNewPath building (random a2) (Gemini.description an) false :: rest)%list /\
    filter isSave rest = [].
Proof.
  intros Hv Hc Hl Han Hne.
  cbn [run fold_left].
  set (w1 := step w (ScanRequested a1)).
  assert (Hw1 : w1 = captureAndAnalyze (store w) a1 w).
  { subst w1. unfold step. now rewrite Hl. }
  destruct (scan_turn_descriptions (store w) a1 w an Hv Hc Hl Han) as [Hlast Hscene].
  destruct (scan_turn (store w) a1 w Hv Hc Hl) as (_ & Hidle & _).
  cbv zeta in Hidle. rewrite <- Hw1 in Hlast, Hscene, Hidle.
  assert (Hpin : Js.nonEmpty (Js.orElse (lastSceneDescription (store w1))
                                        (lastDescription (store w1))) = true).
  { rewrite Hscene. unfold Js.orElse. now rewrite Hne. }
  unfold step at 1. rewrite Hlast, Hne, Hidle. cbn [negb orb].
  destruct (pin_saves_unaudited (store w1) a2 w1 Hpin Hidle) as (Hlog & _).
  cbv zeta in Hlog. rewrite Hlog, Hscene.
  unfold Js.orElse. rewrite Hne.
  eexists. split; [reflexivity|]. now destruct (saved a2).
Qed.

Lemma scan_then_pin_witness :
  videoRef Scenario.fresh = true /\ canvasRef Scenario.fresh = true /\
  isLoading (store Scenario.fresh) = false /\
  Gemini.describeScene (generate Scenario.outage) = Ok (Some Gemini.fallbackAnalysis) /\
  Js.nonEmpty (Gemini.description Gemini.fallbackAnalysis) = true /\
  exists rest,
    log (run Scenario.fresh [ScanRequested Scenario.outage; PinRequested Scenario.sees]) =
      (log (step Scenario.fresh (ScanRequested Scenario.outage)) ++
       SaveNewPath building (random Scenario.sees)
         (Gemini.description Gemini.fallbackAnalysis) false :: rest)%list /\
    filter isSave rest = [].
Proof.
  assert (Hv : videoRef Scenario.fresh = true) by reflexivity.
  assert (Hc : canvasRef Scenario.fresh = true) by reflexivity.
  assert (Hl : isLoading (store Scenario.fresh) = false) by reflexivity.
  assert (Ha : Gemini.describeScene (generate Scenario.outage)
               = Ok (Some Gemini.fallbackAnalysis)) by reflexivity.
  assert (Hn : Js.nonEmpty (Gemini.description Gemini.fallbackAnalysis) = true)
    by reflexivity.
  split; [exact Hv|]. split; [exact Hc|]. split; [exact Hl|].
  split; [exact Ha|]. split; [exact Hn|].
  exact (scan_then_pin Scenario.fresh Scenario.outage Scenario.sees
           Gemini.fallbackAnalysis Hv Hc Hl Ha Hn).
Defined.

(** X18.  A request to translate does not stop a navigation request: when an
    accepted utterance has a navigate keyword and names the language [L] to
    translate to (and no language listed before [L]), the registry is
    searched with the utterance, the target is set, and the analysis of the
    same turn is asked for in [L]. *)
Theorem translation_and_navigation_combine (r : State) (question L : string)
        (before after : list string) (a : Answers) (w : World) :
  videoRef w = true -> canvasRef w = true -> isLoading r = false ->
  classify question = NavigateTo question ->
  map fst languageKeywords = (before ++ L :: after)%list ->
  (forall M, In M before ->
     Js.includes (Js.toLowerCase question) ("translate to " ++ Js.toLowerCase M) = false) ->
  Js.includes (Js.toLowerCase question) ("translate to " ++ Js.toLowerCase L) = true ->
  let w' := handleUserQuestion r question a w in
  In (SearchRegistry question building) (log w') /\
  In (DescribeScene (Some question) (Js.orUndefined (navigationTarget r)) L) (log w') /\
  navigationTarget (store w') =
    Some (match locations a with
          | first :: _ => description first
          | [] => question
          end) /\
  currentLanguageRef w' = currentLanguageRef w.
Proof.
  intros Hv Hc Hl Hq Hsplit Hbefore HL w'.
  destruct (classify_NavigateTo _ _ Hq) as (Hd & Hp & Hn).
  destruct (voice_turn_analysed r question a w Hv Hc Hl Hd Hp)
    as (Hlog & Hnav & _ & _ & Href & _).
  fold w' in Hlog, Hnav, Href. rewrite Hn in Hlog, Hnav.
  assert (Hlang : targetLangForThisRequest (Js.toLowerCase question) (currentLanguageRef w)
                  = L).
  { unfold targetLangForThisRequest. rewrite Hsplit. now apply translateTarget_first. }
  rewrite Hlang in Hlog.
  split; [|split; [|split; [|exact Href]]].
  - rewrite Hlog. apply in_or_app. right. apply in_or_app. left.
    unfold announcement. destruct (locations a); left; reflexivity.
  - rewrite Hlog. apply in_or_app. right. apply in_or_app. right. left. reflexivity.
  - rewrite Hnav. now destruct (locations a).
Qed.

Lemma translation_and_navigation_combine_witness :
  videoRef Scenario.fresh = true /\ canvasRef Scenario.fresh = true /\
  isLoading (recognition Scenario.fresh) = false /\
  classify "translate to french where is the exit" =
    NavigateTo "translate to french where is the exit" /\
  In (DescribeScene (Some "translate to french where is the exit") None "French")
     (log (handleUserQuestion (recognition Scenario.fresh)
             "translate to french where is the exit" Cases.found Scenario.fresh)) /\
  navigationTarget
    (store (handleUserQuestion (recognition Scenario.fresh)
              "translate to french where is the exit" Cases.found Scenario.fresh))
    = Some "Main exit".
Proof.
  assert (Hv : videoRef Scenario.fresh = true) by reflexivity.
  assert (Hc : canvasRef Scenario.fresh = true) by reflexivity.
  assert (Hl : isLoading (recognition Scenario.fresh) = false) by reflexivity.
  assert (Hq : classify "translate to french where is the exit" =
               NavigateTo "translate to french where is the exit") by reflexivity.
  split; [exact Hv|]. split; [exact Hc|]. split; [exact Hl|]. split; [exact Hq|].
  assert (Hb : forall M, In M ["Spanish"] ->
                 Js.includes (Js.toLowerCase "translate to french where is the exit")
                   ("translate to " ++ Js.toLowerCase M) = false).
  { intros M [HM|[]]. subst M. reflexivity. }
  destruct (translation_and_navigation_combine (recognition Scenario.fresh)
              "translate to french where is the exit" "French" ["Spanish"]
              ["German"; "Chinese"; "Japanese"; "Hindi"; "English"; "Portuguese"; "Italian"]
              Cases.found Scenario.fresh Hv Hc Hl Hq eq_refl Hb eq_refl)
    as (_ & Hvision & Hnav & _).
  split; [exact Hvision | exact Hnav].
Defined.

(** X19.  A turn is refused, and nothing at all changes, when the render of
    its handler is loading or when the video or the canvas is not mounted:
    this holds for the voice handler and for the scan handler; [pinLocation]
    refuses when its render is loading; and the scan and pin buttons do
    nothing while the store is loading. *)
Theorem refused_while_loading (r : State) (question : string) (a : Answers) (w : World) :
  isLoading r = true \/ videoRef w = false \/ canvasRef w = false ->
  handleUserQuestion r question a w = w /\
  captureAndAnalyze r a w = w /\
  (isLoading r = true -> exec (pinLocation r a) w = w) /\
  (isLoading (store w) = true ->
   step w (ScanRequested a) = w /\ step w (PinRequested a) = w).
Proof.
  intros H.
  assert (G : negb (videoRef w) || negb (canvasRef w) || isLoading r = true).
  { destruct H as [H|[H|H]]; rewrite H; cbn [negb orb];
      rewrite ?orb_true_r; reflexivity. }
  unfold handleUserQuestion, captureAndAnalyze. rewrite G.
  split; [reflexivity|]. split; [reflexivity|]. split.
  - intros Hl. apply pinLocation_guarded. now right.
  - intros Hs. unfold step. rewrite Hs, orb_true_r. split; reflexivity.
Qed.

Lemma refused_while_loading_witness :
  (isLoading Cases.busy = true \/
   videoRef Scenario.fresh = false \/ canvasRef Scenario.fresh = false) /\
  handleUserQuestion Cases.busy "where is the exit"
    Scenario.sees Scenario.fresh = Scenario.fresh /\
  captureAndAnalyze Cases.busy Scenario.sees Scenario.fresh
    = Scenario.fresh.
Proof.
  assert (H : isLoading Cases.busy = true \/
              videoRef Scenario.fresh = false \/ canvasRef Scenario.fresh = false)
    by (left; reflexivity).
  split; [exact H|].
  destruct (refused_while_loading Cases.busy "where is the exit"
              Scenario.sees Scenario.fresh H) as (Hvoice & Hscan & _).
  split; [exact Hvoice | exact Hscan].
Defined.

End Machine.

(** ** The prompt of the vision call *)

Lemma includes_after (before rest k : string) :
  Js.includes rest k = true -> Js.includes (before ++ rest) k = true.
Proof.
  intros H. induction before as [|c before IH]; [exact H|].
  change (String c before ++ rest) with (String c (before ++ rest)).
  rewrite includes_unfold. cbv beta iota. rewrite IH.
  now destruct (Js.startsWith (String c (before ++ rest)) k).
Qed.

Lemma includes_head (k rest : string) : Js.includes (k ++ rest) k = true.
Proof. apply (includes_append EmptyString). Qed.

(** X10.  The prompt always names the language of the answer.  A question
    that is not empty is quoted in it and hides the navigation target: the
    prompt is then the same with and without a target.  Without a question, a
    target that is not empty is named in it. *)
Theorem prompt_contents (question navigationTarget : option string)
        (targetLanguage : string) :
  Js.includes (Gemini.prompt question navigationTarget targetLanguage) targetLanguage
    = true /\
  (forall text, question = Some text -> Js.nonEmpty text = true ->
     Js.includes (Gemini.prompt question navigationTarget targetLanguage) text = true /\
     Gemini.prompt question navigationTarget targetLanguage =
       Gemini.prompt question None targetLanguage) /\
  (forall target, Js.truthy question = false ->
     navigationTarget = Some target -> Js.nonEmpty target = true ->
     Js.includes (Gemini.prompt question navigationTarget targetLanguage) target = true).
Proof.
  unfold Gemini.prompt. split; [|split].
  - destruct (Js.orUndefined question) as [q|];
      [|destruct (Js.orUndefined navigationTarget) as [t|]];
      repeat (first [apply includes_head | apply includes_after]).
  - intros text Hq Hne. subst question. unfold Js.orUndefined, Js.truthy.
    rewrite Hne. split; [|reflexivity].
    repeat (first [apply includes_head | apply includes_after]).
  - intros target Hq Ht Hne. subst navigationTarget.
    unfold Js.orUndefined. rewrite Hq. unfold Js.truthy. rewrite Hne.
    repeat (first [apply includes_head | apply includes_after]).
Qed.

Lemma prompt_contents_witness :
  Js.includes (Gemini.prompt (Some "what does the sign say") (Some "Main exit") "French")
    "French" = true /\
  Gemini.prompt (Some "what does the sign say") (Some "Main exit") "French" =
    Gemini.prompt (Some "what does the sign say") None "French" /\
  Js.includes (Gemini.prompt None (Some "Main exit") "French") "Main exit" = true.
Proof.
  destruct (prompt_contents (Some "what does the sign say") (Some "Main exit") "French")
    as (Hlang & Hq & _).
  destruct (prompt_contents None (Some "Main exit") "French") as (_ & _ & Ht).
  split; [exact Hlang|]. split.
  - exact (proj2 (Hq "what does the sign say" eq_refl eq_refl)).
  - exact (Ht "Main exit" eq_refl eq_refl eq_refl).
Defined.

(** ** The registry write *)

Example escape_apostrophe :
  SnowflakeSave.escape "Door of the students' cafe" = "Door of the students'' cafe".
Proof. reflexivity. Qed.

Lemma escape_injective (s t : string) :
  SnowflakeSave.escape s = SnowflakeSave.escape t -> s = t.
Proof.
  revert t. induction s as [|c s IH]; intros [|d t]; simpl; intros H.
  - reflexivity.
  - destruct (Ascii.eqb d "'"); discriminate H.
  - destruct (Ascii.eqb c "'"); discriminate H.
  - destruct (Ascii.eqb c "'") eqn:Ec, (Ascii.eqb d "'") eqn:Ed.
    + apply Ascii.eqb_eq in Ec, Ed. subst c d.
      injection H as H. f_equal. now apply IH.
    + injection H as Hd _. subst d. discriminate Ed.
    + injection H as Hc _. subst c. discriminate Ec.
    + injection H as Hc H. subst d. f_equal. now apply IH.
Qed.

Lemma escape_app (s t : string) :
  SnowflakeSave.escape (s ++ t) = (SnowflakeSave.escape s ++ SnowflakeSave.escape t).
Proof.
  induction s as [|c s IH]; [reflexivity|].
  simpl. destruct (Ascii.eqb c "'"); simpl; now rewrite IH.
Qed.

(** X11.  What the escaping of the description does, and all it does: it
    works character by character, every single quote is doubled and every
    other character, a backslash too, goes into the statement as it is.  So
    the escaped text is longer by one character for each single quote, has
    twice as many single quotes, is the description itself when that has no
    single quote, and distinct descriptions give distinct escaped texts. *)
Theorem escape_doubles_quotes (s t : string) :
  SnowflakeSave.escape (s ++ t) = (SnowflakeSave.escape s ++ SnowflakeSave.escape t) /\
  (SnowflakeSave.escape s = SnowflakeSave.escape t -> s = t) /\
  String.length (SnowflakeSave.escape s) = String.length s + SnowflakeSave.quotes s /\
  SnowflakeSave.quotes (SnowflakeSave.escape s) = 2 * SnowflakeSave.quotes s /\
  (SnowflakeSave.quotes s = 0 -> SnowflakeSave.escape s = s).
Proof.
  split; [apply escape_app|]. split; [apply escape_injective|]. clear t.
  induction s as [|c s (Hlen & Hq & Hid)]; [repeat split|].
  simpl. destruct (Ascii.eqb c "'") eqn:Ec; simpl; rewrite ?Ec; simpl.
  - split; [lia|]. split; [lia|]. discriminate.
  - split; [lia|]. split; [lia|]. intros H. f_equal. now apply Hid.
Qed.

Lemma escape_doubles_quotes_witness :
  SnowflakeSave.quotes "Stairs \ ramp" = 0 /\
  SnowflakeSave.escape "Stairs \ ramp" = SnowflakeSave.escape "Stairs \ ramp" /\
  SnowflakeSave.escape "Stairs \ ramp" = "Stairs \ ramp".
Proof.
  destruct (escape_doubles_quotes "Stairs \ ramp" "Stairs \ ramp")
    as (_ & _ & _ & _ & Hid).
  split; [reflexivity|]. split; [reflexivity|]. exact (Hid eq_refl).
Defined.

(** X12.  [saveNewPath] resolves, with the identifier it drew, exactly when
    the first request was delivered and the reply to the insert is a JSON
    value whose [code] is the string [000000]; in every other case it
    rejects.  The insert is sent only after the first request was delivered. *)
Theorem save_resolves_iff (String_of : Snowflake.Json -> string) (id : string)
        (node : SnowflakeSave.NewNode) (create : SnowflakeSave.Sent)
        (insert : Snowflake.Response) :
  (forall result,
     snd (SnowflakeSave.saveNewPath String_of id node create insert) = Ok result <->
     result = id /\ create = SnowflakeSave.Delivered /\
     exists data, insert = Snowflake.Body data /\
                  Snowflake.prop data "code" = Ok (Some (Snowflake.JString "000000"))) /\
  ((exists result,
      snd (SnowflakeSave.saveNewPath String_of id node create insert) = Ok result) \/
   (exists message,
      snd (SnowflakeSave.saveNewPath String_of id node create insert) = Throw message)) /\
  (In (SnowflakeSave.insertSql id node)
      (fst (SnowflakeSave.saveNewPath String_of id node create insert)) <->
   create = SnowflakeSave.Delivered).
Proof.
  split; [|split].
  - intros result. split.
    + destruct create; [|discriminate].
      destruct insert as [| |data]; try discriminate.
      cbn [SnowflakeSave.saveNewPath snd SnowflakeSave.trySave].
      destruct data as [|b|n|t|items|fields];
        cbn [Snowflake.prop bind tryCatch SnowflakeSave.succeeded]; try discriminate.
      destruct (Snowflake.field fields "code") as [[|b|n|t|items|fs]|] eqn:E;
        cbn [SnowflakeSave.succeeded bind tryCatch]; try discriminate.
      destruct (String.eqb t "000000") eqn:Et; cbn [tryCatch]; [|discriminate].
      apply String.eqb_eq in Et. subst t.
      intros H. inversion H. repeat split.
      eexists. split; [reflexivity|]. cbn [Snowflake.prop]. now rewrite E.
    + intros (Hr & Hc & data & Hi & Hcode). subst result create insert.
      cbn [SnowflakeSave.saveNewPath snd SnowflakeSave.trySave].
      rewrite Hcode. reflexivity.
  - destruct (snd (SnowflakeSave.saveNewPath String_of id node create insert)); eauto.
  - destruct create; cbn [SnowflakeSave.saveNewPath fst SnowflakeSave.statements].
    + split; [reflexivity|]. intros _. right. left. reflexivity.
    + split; [|discriminate].
      intros [H|[]]. exfalso.
      assert (Hc : String.get 0 SnowflakeSave.createTableSql
                   = String.get 0 (SnowflakeSave.insertSql id node))
        by now rewrite H.
      discriminate Hc.
Qed.

Example save_reports_failure :
  snd (SnowflakeSave.saveNewPath Cases.printOther "node_k3x9q2m1a" Cases.cafe
         SnowflakeSave.Delivered
         (Snowflake.Body
            (Snowflake.JObject
               [("message", Snowflake.JString "SQL compilation error.");
                ("hint", Snowflake.JString "Check the table.")]))) =
  Throw ("Snowflake Save Failed: SQL compilation error." ++ SnowflakeSave.newline ++
         "Hint: Check the table.").
Proof. reflexivity. Qed.

Example save_succeeds :
  SnowflakeSave.saveNewPath Cases.printOther "node_k3x9q2m1a" Cases.cafe
    SnowflakeSave.Delivered (Snowflake.Body Cases.ran) =
  ([SnowflakeSave.createTableSql;
    SnowflakeSave.insertSql "node_k3x9q2m1a" Cases.cafe], Ok "node_k3x9q2m1a").
Proof. reflexivity. Qed.

(** ** The proxy *)

Lemma length_append (a b : string) :
  String.length (a ++ b) = String.length a + String.length b.
Proof. induction a as [|c a IH]; simpl; [reflexivity | now rewrite IH]. Qed.

(** A text that ends with the suffix loses exactly the suffix. *)
Lemma removeSuffix_append (suffix text : string) :
  Server.removeSuffix suffix (text ++ suffix) = Some text.
Proof.
  induction text as [|c text IH].
  - change (EmptyString ++ suffix) with suffix.
    destruct suffix; cbn [Server.removeSuffix]; now rewrite String.eqb_refl.
  - change (String c text ++ suffix) with (String c (text ++ suffix)).
    cbn [Server.removeSuffix]. rewrite IH.
    destruct (String.eqb (String c (text ++ suffix)) suffix) eqn:E; [|reflexivity].
    apply String.eqb_eq in E. apply (f_equal String.length) in E.
    cbn [String.length] in E. rewrite length_append in E. lia.
Qed.

Lemma removeSuffix_sound (suffix text rest : string) :
  Server.removeSuffix suffix text = Some rest -> text = rest ++ suffix.
Proof.
  revert rest. induction text as [|c text IH]; intros rest.
  - cbn [Server.removeSuffix].
    destruct (String.eqb EmptyString suffix) eqn:E; [|discriminate].
    apply String.eqb_eq in E. intros H. inversion H. now subst.
  - cbn [Server.removeSuffix].
    destruct (String.eqb (String c text) suffix) eqn:E.
    + apply String.eqb_eq in E. intros H. inversion H. now subst.
    + destruct (Server.removeSuffix suffix text) as [r|]; [|discriminate].
      intros H. inversion H. cbn [String.append]. now rewrite (IH r eq_refl).
Qed.

(** The last character of a text. *)
Lemma last_append (a b : string) (c : ascii) :
  String.get (String.length (a ++ String c b) - 1) (a ++ String c b) =
  String.get (String.length (String c b) - 1) (String c b).
Proof.
  induction a as [|d a IH]; [reflexivity|].
  change (String d a ++ String c b) with (String d (a ++ String c b)).
  cbn [String.length]. rewrite length_append in *. cbn [String.length] in *.
  replace (S (String.length a + S (String.length b)) - 1)
    with (S (String.length a + S (String.length b) - 1)) by lia.
  cbn [String.get]. exact IH.
Qed.

(** A text that ends with the domain keeps it when the domain followed by a
    slash is looked for. *)
Lemma removeSuffix_slash (text : string) :
  Server.removeSuffix (Server.domain ++ "/") (text ++ Server.domain) = None.
Proof.
  destruct (Server.removeSuffix (Server.domain ++ "/") (text ++ Server.domain))
    as [rest|] eqn:E; [|reflexivity].
  apply removeSuffix_sound in E.
  assert (H : String.get (String.length (text ++ Server.domain) - 1) (text ++ Server.domain)
              = String.get (String.length (rest ++ Server.domain ++ "/") - 1)
                  (rest ++ Server.domain ++ "/")) by now rewrite E.
  unfold Server.domain in H.
  rewrite (last_append text "snowflakecomputing.com" "."%char) in H.
  change (".snowflakecomputing.com" ++ "/")
    with (String "."%char "snowflakecomputing.com/") in H.
  rewrite (last_append rest "snowflakecomputing.com/" "."%char) in H.
  discriminate H.
Qed.

(** X13.  The account may be given as the address of the console: with or
    without the scheme [https://] or [http://] in front, and with the domain
    [.snowflakecomputing.com], followed or not by a slash, behind, it is
    sanitised to the bare identifier, and the request goes to the statements
    address of that identifier. *)
Theorem sanitize_console_address (identifier : string) :
  Server.sanitize ("https://" ++ identifier ++ Server.domain ++ "/") = identifier /\
  Server.sanitize ("https://" ++ identifier ++ Server.domain) = identifier /\
  Server.sanitize ("http://" ++ identifier ++ Server.domain ++ "/") = identifier /\
  Server.sanitize ("http://" ++ identifier ++ Server.domain) = identifier /\
  Server.snowflakeUrl (Server.sanitize ("https://" ++ identifier ++ Server.domain ++ "/")) =
    "https://" ++ identifier ++ ".snowflakecomputing.com/api/v2/statements".
Proof.
  assert (Hslash : Server.stripDomain (identifier ++ Server.domain ++ "/") = identifier).
  { unfold Server.stripDomain. now rewrite removeSuffix_append. }
  assert (Hbare : Server.stripDomain (identifier ++ Server.domain) = identifier).
  { unfold Server.stripDomain. now rewrite removeSuffix_slash, removeSuffix_append. }
  assert (H1 : Server.sanitize ("https://" ++ identifier ++ Server.domain ++ "/")
               = identifier) by exact Hslash.
  split; [exact H1|]. split; [exact Hbare|]. split; [exact Hslash|].
  split; [exact Hbare|]. now rewrite H1.
Qed.

Example sanitize_plain : Server.sanitize "UF75979.us-east-1" = "UF75979.us-east-1".
Proof. reflexivity. Qed.

(** X14.  When the proxy has no account or no token, it answers with status
    500 without sending anything, and the registry client, which does not
    look at the status, degrades: both reads resolve with the empty list, and
    the save rejects with the message of the proxy. *)
Theorem missing_credentials_degrade (env : Server.Env) (sql : string)
        (JSON_parse : Snowflake.Value -> Exc Snowflake.Json)
        (String_of : Snowflake.Json -> string)
        (query buildingId id : string) (node : SnowflakeSave.NewNode) :
  Server.credentialsMissing env = true ->
  exists reply,
    Server.prepare env sql = inl reply /\
    Server.status reply = 500%Z /\
    Snowflake.searchRegistry JSON_parse query buildingId (Server.received reply) = Ok [] /\
    Snowflake.fetchGoldenPath JSON_parse buildingId (Server.received reply) = Ok [] /\
    snd (SnowflakeSave.saveNewPath String_of id node SnowflakeSave.Delivered
           (Server.received reply)) =
      Throw "Snowflake Save Failed: Snowflake credentials missing in environment.".
Proof.
  intros H. unfold Server.prepare. rewrite H.
  eexists. split; [reflexivity|]. repeat split; reflexivity.
Qed.

Lemma missing_credentials_degrade_witness :
  Server.credentialsMissing Cases.noToken = true /\
  exists reply,
    Server.prepare Cases.noToken "SELECT 1" = inl reply /\
    Server.status reply = 500%Z /\
    Snowflake.searchRegistry Scenario.parseCell "exit" "uni_library_main"
      (Server.received reply) = Ok [] /\
    Snowflake.fetchGoldenPath Scenario.parseCell "uni_library_main"
      (Server.received reply) = Ok [] /\
    snd (SnowflakeSave.saveNewPath Cases.printOther "node_k3x9q2m1a" Cases.cafe
           SnowflakeSave.Delivered (Server.received reply)) =
      Throw "Snowflake Save Failed: Snowflake credentials missing in environment.".
Proof.
  split; [reflexivity|].
  exact (missing_credentials_degrade Cases.noToken "SELECT 1" Scenario.parseCell
           Cases.printOther "exit" "uni_library_main" "node_k3x9q2m1a" Cases.cafe
           eq_refl).
Defined.

(** ** The remote voice and its fallback *)

(** X15.  [speak] never rejects.  Without a key or a voice, or with the
    placeholder key, it sends nothing and resolves with null.  Otherwise it
    sends one request, to the address of its voice and with its key, and it
    resolves with a URL exactly when the response is ok and its blob could be
    read; every failure resolves with null. *)
Theorem speak_settles (svc : ElevenLabs.Service) (message : string)
        (reply : ElevenLabs.Reply) :
  (exists voiceUrl, snd (ElevenLabs.speak svc message reply) = Ok voiceUrl) /\
  (ElevenLabs.unconfigured svc = true ->
   ElevenLabs.speak svc message reply = ([], Ok None)) /\
  (ElevenLabs.unconfigured svc = false ->
   fst (ElevenLabs.speak svc message reply) =
     [ {| ElevenLabs.url :=
            "https://api.elevenlabs.io/v1/text-to-speech/" ++ ElevenLabs.voiceId svc;
          ElevenLabs.xiApiKey := ElevenLabs.apiKey svc;
          ElevenLabs.text := message;
          ElevenLabs.modelId := "eleven_multilingual_v2" |} ]) /\
  (forall objectUrl,
     snd (ElevenLabs.speak svc message reply) = Ok (Some objectUrl) <->
     ElevenLabs.unconfigured svc = false /\ reply = ElevenLabs.Audio objectUrl).
Proof.
  unfold ElevenLabs.speak.
  destruct (ElevenLabs.unconfigured svc) eqn:E; cbn [fst snd].
  - split; [eauto|]. split; [reflexivity|]. split; [discriminate|].
    intros objectUrl. split; [discriminate | intros [H _]; discriminate].
  - split; [destruct reply as [|[]| |u]; eexists; reflexivity|].
    split; [discriminate|]. split; [reflexivity|].
    intros objectUrl. split.
    + destruct reply as [|[]| |u]; cbn [ElevenLabs.trySpeak tryCatch];
        try discriminate.
      intros H. inversion H. auto.
    + intros [_ H]. subst reply. reflexivity.
Qed.

Example speak_placeholder_key :
  ElevenLabs.speak {| ElevenLabs.apiKey := "MY_ELEVENLABS_KEY";
                      ElevenLabs.voiceId := "pMs7uS297jtjz4kyM997" |}
    "Hello" (ElevenLabs.Audio "blob:1") = ([], Ok None).
Proof. reflexivity. Qed.

(** X16.  With an unconfigured voice service, a message played from silence
    is spoken by the local synthesis: after the call has run to its end the
    message is the one utterance queued, the audio element plays nothing and
    the flag is true; the end of the utterance then clears the flag. *)
Theorem unconfigured_speaks_locally (svc : ElevenLabs.Service) (message : string)
        (reply : ElevenLabs.Reply) (play : Speech.Play) (p : Speech.Player) :
  ElevenLabs.unconfigured svc = true ->
  Speech.audio p = None ->
  let p' := Speech.run p
              [Speech.Call message;
               Speech.Settle message
                 (Locale.synthesis (snd (ElevenLabs.speak svc message reply)) play)] in
  Speech.queue p' = [message] /\
  Speech.audio p' = None /\
  Speech.active p' = [message] /\
  Speech.isAudioPlaying p' = true /\
  Speech.isAudioPlaying (Speech.step p' Speech.UtteranceEnd) = false /\
  Speech.active (Speech.step p' Speech.UtteranceEnd) = [].
Proof.
  intros H Hau. unfold ElevenLabs.speak. rewrite H.
  destruct p as [flag ref au q]. simpl in Hau. subst au.
  repeat split; reflexivity.
Qed.

Lemma unconfigured_speaks_locally_witness :
  ElevenLabs.unconfigured Cases.noKey = true /\
  Speech.audio Speech.silent = None /\
  Speech.queue
    (Speech.run Speech.silent
       [Speech.Call "Hello";
        Speech.Settle "Hello"
          (Locale.synthesis
             (snd (ElevenLabs.speak Cases.noKey "Hello" (ElevenLabs.Audio "blob:1")))
             Speech.Started)]) = ["Hello"].
Proof.
  split; [reflexivity|]. split; [reflexivity|].
  destruct (unconfigured_speaks_locally Cases.noKey "Hello" (ElevenLabs.Audio "blob:1")
              Speech.Started Speech.silent eq_refl eq_refl) as (Hq & _).
  exact Hq.
Defined.

(** ** The rows of a registry read *)

Lemma mapExc_length {A B : Type} (f : A -> Exc B) (items : list A) (results : list B) :
  Snowflake.mapExc f items = Ok results -> length results = length items.
Proof.
  revert results. induction items as [|a items IH]; intros results.
  - cbn [Snowflake.mapExc]. intros H. inversion H. reflexivity.
  - cbn [Snowflake.mapExc]. destruct (f a) as [b|e]; cbn [bind]; [|discriminate].
    destruct (Snowflake.mapExc f items) as [bs|e]; cbn [bind]; [|discriminate].
    intros H. inversion H. cbn [length]. now rewrite (IH bs eq_refl).
Qed.

Lemma mapExc_throws {A B : Type} (f : A -> Exc B) (items : list A) (a : A) (e : string) :
  In a items -> f a = Throw e -> exists e', Snowflake.mapExc f items = Throw e'.
Proof.
  intros Hin Hf. induction items as [|x items IH]; [contradiction|].
  cbn [Snowflake.mapExc]. destruct Hin as [Hx|Hin].
  - subst x. rewrite Hf. cbn [bind]. eauto.
  - destruct (f x) as [b|e1]; cbn [bind]; [|eauto].
    destruct (IH Hin) as [e' He']. rewrite He'. cbn [bind]. eauto.
Qed.

(** X17.  A registry read is all or nothing.  When the reply has an array of
    rows, the read resolves with one node for each row, in the order of the
    rows, if every row can be mapped; and if one row cannot (its coordinates
    do not parse, or the row is null), the read resolves with the empty list,
    the good rows included. *)
Theorem read_all_or_nothing (JSON_parse : Snowflake.Value -> Exc Snowflake.Json)
        (query buildingId : string) (data : Snowflake.Json) (rows : list Snowflake.Json) :
  Snowflake.prop data "data" = Ok (Some (Snowflake.JArray rows)) ->
  (forall nodes,
     Snowflake.mapExc (Snowflake.mapRow JSON_parse) rows = Ok nodes ->
     Snowflake.searchRegistry JSON_parse query buildingId (Snowflake.Body data) = Ok nodes /\
     Snowflake.fetchGoldenPath JSON_parse buildingId (Snowflake.Body data) = Ok nodes /\
     length nodes = length rows) /\
  (forall row e,
     In row rows -> Snowflake.mapRow JSON_parse row = Throw e ->
     Snowflake.searchRegistry JSON_parse query buildingId (Snowflake.Body data) = Ok [] /\
     Snowflake.fetchGoldenPath JSON_parse buildingId (Snowflake.Body data) = Ok []).
Proof.
  intros Hdata.
  unfold Snowflake.searchRegistry, Snowflake.fetchGoldenPath, Snowflake.tryRead.
  rewrite Hdata. cbn [bind Snowflake.truthy Snowflake.mapRows]. split.
  - intros nodes H. rewrite H. cbn [tryCatch].
    repeat split. eapply mapExc_length. exact H.
  - intros row e Hin Hrow.
    destruct (mapExc_throws _ _ _ _ Hin Hrow) as [e' He']. rewrite He'.
    split; reflexivity.
Qed.

Lemma read_all_or_nothing_witness :
  Snowflake.prop
    (Snowflake.JObject [("data", Snowflake.JArray [Scenario.goodRow; Scenario.badRow])])
    "data" = Ok (Some (Snowflake.JArray [Scenario.goodRow; Scenario.badRow])) /\
  In Scenario.badRow [Scenario.goodRow; Scenario.badRow] /\
  Snowflake.mapRow Scenario.parseCell Scenario.badRow = Throw "SyntaxError" /\
  Snowflake.searchRegistry Scenario.parseCell "exit" "uni_library_main"
    (Snowflake.Body
       (Snowflake.JObject [("data", Snowflake.JArray [Scenario.goodRow; Scenario.badRow])]))
    = Ok [].
Proof.
  assert (Hd : Snowflake.prop
                 (Snowflake.JObject
                    [("data", Snowflake.JArray [Scenario.goodRow; Scenario.badRow])])
                 "data" = Ok (Some (Snowflake.JArray [Scenario.goodRow; Scenario.badRow])))
    by reflexivity.
  assert (Hin : In Scenario.badRow [Scenario.goodRow; Scenario.badRow])
    by (right; left; reflexivity).
  assert (Hrow : Snowflake.mapRow Scenario.parseCell Scenario.badRow = Throw "SyntaxError")
    by reflexivity.
  split; [exact Hd|]. split; [exact Hin|]. split; [exact Hrow|].
  destruct (read_all_or_nothing Scenario.parseCell "exit" "uni_library_main" _ _ Hd)
    as (_ & Hbad).
  exact (proj1 (Hbad Scenario.badRow "SyntaxError" Hin Hrow)).
Defined.

Example speak_refused :
  ElevenLabs.speak Cases.withKey "Hello" (ElevenLabs.NotOk false) =
  ([ElevenLabs.request Cases.withKey "Hello"], Ok None).
Proof. reflexivity. Qed.
